(** * Data quality assessment: a shallow embedding of [data_quality.py]

    The development follows [assess_data_quality] block by block: the six
    dimension analysers, the column details and the aggregation into the
    report.  Conventions of the embedding:

    - a pandas [DataFrame] is a row count and an ordered list of labelled
      columns; labels are strings and may repeat; a column ([Series])
      carries its dtype in its constructor ([int64], [float64], [object]),
      and the cells of an [object] column are text or missing;
    - Python floats that hold scores, percentages and thresholds are exact
      rationals ([Q]); a [float64] cell is a rational, an infinity or NaN,
      and NaN is the missing value of a float column;
    - [str] values are UTF-8 byte strings;
    - Python exceptions are the [Raise] results of an error monad, and a
      loop over [df.columns] stops at the first one;
    - what the code asks of its libraries and whose result no formula of the
      engine looks into (float parsing, date parsing, the year search, the
      quantile, the printing of floats) is a field of the [Lib] interface;
      [RefLib.ref_lib] is one instance, used to run the model;
    - the calendar year read from [datetime.now()] is the first argument of
      the functions that read it. *)

From Stdlib Require Import String Ascii Bool Arith ZArith QArith Qround Qminmax Lia Lqa.
From Stdlib Require Import List Permutation.
Import ListNotations.

Set Implicit Arguments.

Open Scope string_scope.
Open Scope Z_scope.
Open Scope nat_scope.

(** ** Exceptions *)

Inductive exn : Type :=
  | AttributeError
  | IndexError
  | ZeroDivisionError.

Inductive Result (A : Type) : Type :=
  | Ok (a : A)
  | Raise (e : exn).

Arguments Ok {A} a.
Arguments Raise {A} e.

Definition bind {A B : Type} (m : Result A) (k : A -> Result B) : Result B :=
  match m with
  | Ok a => k a
  | Raise e => Raise e
  end.

Notation "x <- m ;; k" := (bind m (fun x => k))
  (at level 61, m at next level, right associativity).

(** A [for] loop whose body may raise: the first exception ends the loop. *)
Fixpoint for_each {A S : Type} (body : A -> S -> Result S) (l : list A) (s : S)
  : Result S :=
  match l with
  | [] => Ok s
  | x :: r => s' <- body x s ;; for_each body r s'
  end.

(** ** Python built-ins on numbers *)

Definition QofN (n : nat) : Q := inject_Z (Z.of_nat n).

(** [a / b] on numbers. *)
Definition py_div (a b : Q) : Result Q :=
  if Qeq_bool b 0 then Raise ZeroDivisionError else Ok (a / b)%Q.

(** [max(0, x)]: the first argument is kept unless the second is greater. *)
Definition max0 (x : Q) : Q :=
  if Qle_bool x 0 then 0%Q else x.

(** [sum(l)]: starts from 0 and adds from the left. *)
Definition py_sum (l : list Q) : Q := fold_left Qplus l 0%Q.

Definition count {A : Type} (p : A -> bool) (l : list A) : nat :=
  length (filter p l).

Definition sum_nat (l : list nat) : nat := fold_right Nat.add 0 l.

(** ** [float64] values *)

Inductive float64 : Type :=
  | NaN
  | PInf
  | NInf
  | Fin (q : Q).

Definition of_int (z : Z) : float64 := Fin (inject_Z z).

Definition is_nan (x : float64) : bool :=
  match x with NaN => true | _ => false end.

Definition is_inf (x : float64) : bool :=
  match x with PInf | NInf => true | _ => false end.

(** [x < y]; every comparison with NaN is false. *)
Definition flt (x y : float64) : bool :=
  match x, y with
  | NaN, _ | _, NaN => false
  | _, NInf => false
  | NInf, _ => true
  | PInf, _ => false
  | Fin _, PInf => true
  | Fin a, Fin b => negb (Qle_bool b a)
  end.

Definition fgt (x y : float64) : bool := flt y x.

(** [x <= y]. *)
Definition fle (x y : float64) : bool :=
  match x, y with
  | NaN, _ | _, NaN => false
  | NInf, _ => true
  | _, PInf => true
  | _, NInf => false
  | PInf, _ => false
  | Fin a, Fin b => Qle_bool a b
  end.

Definition fge (x y : float64) : bool := fle y x.

Definition fneg (x : float64) : float64 :=
  match x with
  | NaN => NaN
  | PInf => NInf
  | NInf => PInf
  | Fin q => Fin (- q)%Q
  end.

(** [x + y]; the sum of opposite infinities is NaN. *)
Definition fadd (x y : float64) : float64 :=
  match x, y with
  | NaN, _ | _, NaN => NaN
  | PInf, NInf | NInf, PInf => NaN
  | PInf, _ | _, PInf => PInf
  | NInf, _ | _, NInf => NInf
  | Fin a, Fin b => Fin (a + b)%Q
  end.

Definition fsub (x y : float64) : float64 := fadd x (fneg y).

(** [k * x] for a finite non-zero-or-zero factor; zero times an infinity is
    NaN. *)
Definition fscale (k : Q) (x : float64) : float64 :=
  match x with
  | NaN => NaN
  | Fin a => Fin (k * a)%Q
  | PInf => if Qeq_bool k 0 then NaN else if Qle_bool k 0 then NInf else PInf
  | NInf => if Qeq_bool k 0 then NaN else if Qle_bool k 0 then PInf else NInf
  end.

(** Equality of cells as [duplicated] sees it: NaN equals NaN. *)
Definition f_same (x y : float64) : bool :=
  match x, y with
  | NaN, NaN | PInf, PInf | NInf, NInf => true
  | Fin a, Fin b => Qeq_bool a b
  | _, _ => false
  end.

(** ** [str] values *)

Fixpoint contains (needle hay : string) : bool :=
  if prefix needle hay then true
  else match hay with
       | EmptyString => false
       | String _ rest => contains needle rest
       end.

Definition lower_char (c : ascii) : ascii :=
  let n := nat_of_ascii c in
  if (65 <=? n) && (n <=? 90) then ascii_of_nat (n + 32) else c.

(** [s.lower()].  Only the letters A to Z are changed; on UTF-8 text the
    other characters that Python lowers never give a byte of the ASCII or
    Arabic keywords this program looks for. *)
Fixpoint lower (s : string) : string :=
  match s with
  | EmptyString => EmptyString
  | String c r => String (lower_char c) (lower r)
  end.

(** [len(s)]: the number of code points, that is of bytes that are not
    UTF-8 continuation bytes. *)
Fixpoint py_len (s : string) : nat :=
  match s with
  | EmptyString => 0
  | String c r =>
      let n := nat_of_ascii c in
      (if (128 <=? n) && (n <? 192) then 0 else 1) + py_len r
  end.

(** [str(z)] for an integer. *)
Fixpoint digits_of (fuel n : nat) (acc : string) : string :=
  match fuel with
  | O => acc
  | S f =>
      let acc' := String (ascii_of_nat (48 + n mod 10)) acc in
      if n / 10 =? 0 then acc' else digits_of f (n / 10) acc'
  end.

Definition str_of_nat (n : nat) : string := digits_of (S n) n EmptyString.

Definition str_of_int (z : Z) : string :=
  if (z <? 0)%Z then String "-" (str_of_nat (Z.abs_nat z))
  else str_of_nat (Z.abs_nat z).

(** ** Regular expressions of the [re] module

    Only what the e-mail pattern needs: character sets, sequence, choice and
    repetition, matched by derivatives. *)

Inductive regex : Type :=
  | RNone
  | REps
  | RSet (p : ascii -> bool)
  | RSeq (r1 r2 : regex)
  | RAlt (r1 r2 : regex)
  | RStar (r : regex).

Fixpoint nullable (r : regex) : bool :=
  match r with
  | RNone => false
  | REps => true
  | RSet _ => false
  | RSeq r1 r2 => nullable r1 && nullable r2
  | RAlt r1 r2 => nullable r1 || nullable r2
  | RStar _ => true
  end.

Fixpoint deriv (c : ascii) (r : regex) : regex :=
  match r with
  | RNone => RNone
  | REps => RNone
  | RSet p => if p c then REps else RNone
  | RSeq r1 r2 =>
      if nullable r1 then RAlt (RSeq (deriv c r1) r2) (deriv c r2)
      else RSeq (deriv c r1) r2
  | RAlt r1 r2 => RAlt (deriv c r1) (deriv c r2)
  | RStar r1 => RSeq (deriv c r1) (RStar r1)
  end.

Fixpoint fullmatch (r : regex) (s : string) : bool :=
  match s with
  | EmptyString => nullable r
  | String c t => fullmatch (deriv c r) t
  end.

(** [r+] and [r{2,}]. *)
Definition RPlus (r : regex) : regex := RSeq r (RStar r).
Definition RAtLeast2 (r : regex) : regex := RSeq r (RSeq r (RStar r)).

Definition newline : ascii := ascii_of_nat 10.

(** The string without its last character when that is a newline. *)
Fixpoint chop_newline (s : string) : option string :=
  match s with
  | EmptyString => None
  | String c EmptyString => if Ascii.eqb c newline then Some EmptyString else None
  | String c t =>
      match chop_newline t with
      | Some t' => Some (String c t')
      | None => None
      end
  end.

(** [re.match('^' r '$', s)] seen as a boolean: [^] is the start of [s],
    and [$] is its end or the place before a newline that ends it. *)
Definition re_match_anchored (r : regex) (s : string) : bool :=
  fullmatch r s ||
  match chop_newline s with
  | Some s' => fullmatch r s'
  | None => false
  end.

Definition in_range (lo hi c : ascii) : bool :=
  (nat_of_ascii lo <=? nat_of_ascii c) && (nat_of_ascii c <=? nat_of_ascii hi).

Definition alnum (c : ascii) : bool :=
  in_range "a" "z" c || in_range "A" "Z" c || in_range "0" "9" c.

Definition one_of (l : list ascii) (c : ascii) : bool :=
  existsb (Ascii.eqb c) l.

(** [[a-zA-Z0-9._%+-]] *)
Definition local_char (c : ascii) : bool :=
  alnum c || one_of ["."; "_"; "%"; "+"; "-"]%char c.

(** [[a-zA-Z0-9.-]] *)
Definition domain_char (c : ascii) : bool :=
  alnum c || one_of ["."; "-"]%char c.

(** [[a-zA-Z]] *)
Definition alpha_char (c : ascii) : bool :=
  in_range "a" "z" c || in_range "A" "Z" c.

(** [email_pattern = r'^[a-zA-Z0-9._%+-]+@[a-zA-Z0-9.-]+\.[a-zA-Z]{2,}$'],
    without its two anchors. *)
Definition email_pattern : regex :=
  RSeq (RPlus (RSet local_char))
    (RSeq (RSet (Ascii.eqb "@"))
       (RSeq (RPlus (RSet domain_char))
          (RSeq (RSet (Ascii.eqb "."))
             (RAtLeast2 (RSet alpha_char))))).

(** ** Series and frames *)

Inductive dtype : Type := int64 | float64_dtype | object.

Definition dtype_str (d : dtype) : string :=
  match d with
  | int64 => "int64"
  | float64_dtype => "float64"
  | object => "object"
  end.

(** A column: its dtype and its cells in row order.  An [int64] column has
    no missing cell, NaN is the missing cell of a [float64] column and
    [None] that of an [object] column, whose other cells are text. *)
Inductive Series : Type :=
  | SInt (l : list Z)
  | SFloat (l : list float64)
  | SObject (l : list (option string)).

Definition series_dtype (s : Series) : dtype :=
  match s with
  | SInt _ => int64
  | SFloat _ => float64_dtype
  | SObject _ => object
  end.

Definition is_object (s : Series) : bool :=
  match s with SObject _ => true | _ => false end.

(** [s.dtype in ['int64', 'float64']] *)
Definition is_numeric (s : Series) : bool :=
  match s with SInt _ | SFloat _ => true | SObject _ => false end.

Definition series_len (s : Series) : nat :=
  match s with
  | SInt l => length l
  | SFloat l => length l
  | SObject l => length l
  end.

Definition is_none {A : Type} (o : option A) : bool :=
  match o with None => true | Some _ => false end.

(** [s.isnull().sum()] *)
Definition isnull_sum (s : Series) : nat :=
  match s with
  | SInt _ => 0
  | SFloat l => count is_nan l
  | SObject l => count is_none l
  end.

(** [s.dropna()] *)
Definition dropna (s : Series) : Series :=
  match s with
  | SInt l => SInt l
  | SFloat l => SFloat (filter (fun x => negb (is_nan x)) l)
  | SObject l => SObject (filter (fun o => negb (is_none o)) l)
  end.

(** The values of a numeric column as floats, for the comparisons and the
    statistics that numpy carries out on them. *)
Definition numeric_values (s : Series) : list float64 :=
  match s with
  | SInt l => map of_int l
  | SFloat l => l
  | SObject _ => []
  end.

(** [s.head(n)] on the values. *)
Definition head {A : Type} (n : nat) (l : list A) : list A := firstn n l.

(** [l.iloc[i]] *)
Definition iloc {A : Type} (l : list A) (i : nat) : Result A :=
  match nth_error l i with
  | Some x => Ok x
  | None => Raise IndexError
  end.

(** A cell of any column, as a row holds it. *)
Inductive cell : Type :=
  | CInt (z : Z)
  | CFloat (x : float64)
  | CText (o : option string).

Definition series_cells (s : Series) : list cell :=
  match s with
  | SInt l => map CInt l
  | SFloat l => map CFloat l
  | SObject l => map CText l
  end.

Definition text_same (a b : option string) : bool :=
  match a, b with
  | None, None => true
  | Some x, Some y => String.eqb x y
  | _, _ => false
  end.

(** Two cells are the same for [duplicated]: equal values, and a missing
    cell equals a missing cell. *)
Definition cell_same (a b : cell) : bool :=
  match a, b with
  | CInt x, CInt y => Z.eqb x y
  | CFloat x, CFloat y => f_same x y
  | CText x, CText y => text_same x y
  | _, _ => false
  end.

Fixpoint row_same (r1 r2 : list (option cell)) : bool :=
  match r1, r2 with
  | [], [] => true
  | Some a :: t1, Some b :: t2 => cell_same a b && row_same t1 t2
  | None :: t1, None :: t2 => row_same t1 t2
  | _, _ => false
  end.

(** [duplicated().sum()] over a sequence: an element counts when an earlier
    one is the same; [seen] holds the earlier ones. *)
Fixpoint duplicated_from {A : Type} (same : A -> A -> bool) (seen l : list A)
  : nat :=
  match l with
  | [] => 0
  | x :: r =>
      (if existsb (same x) seen then 1 else 0)
      + duplicated_from same (x :: seen) r
  end.

Definition duplicated_sum {A : Type} (same : A -> A -> bool) (l : list A) : nat :=
  duplicated_from same [] l.

Record DataFrame : Type := {
  nrows : nat;
  columns : list (string * Series)
}.

(** [df.columns] *)
Definition labels (df : DataFrame) : list string := map fst (columns df).

(** Every column has one cell per row. *)
Definition wf_frame (df : DataFrame) : Prop :=
  Forall (fun c => series_len (snd c) = nrows df) (columns df).

(** [df[col]] used as a column.  When the label occurs once the result is
    that column.  When it occurs several times pandas returns a frame of
    all the columns that carry it, and the first use the code makes of it,
    [df[col].dtype] in the consistency loop, raises [AttributeError]. *)
Definition getitem (df : DataFrame) (col : string) : Result Series :=
  match filter (fun c => String.eqb (fst c) col) (columns df) with
  | [c] => Ok (snd c)
  | _ => Raise AttributeError
  end.

(** Row [i] of the frame. *)
Definition row (df : DataFrame) (i : nat) : list (option cell) :=
  map (fun c => nth_error (series_cells (snd c)) i) (columns df).

Definition rows (df : DataFrame) : list (list (option cell)) :=
  map (row df) (seq 0 (nrows df)).

(** [df.empty]: no rows or no columns. *)
Definition frame_empty (df : DataFrame) : bool :=
  (nrows df =? 0) || (length (columns df) =? 0).

(** [df.duplicated().sum()]; pandas answers an empty series for an empty
    frame. *)
Definition frame_duplicated_sum (df : DataFrame) : nat :=
  if frame_empty df then 0 else duplicated_sum row_same (rows df).

(** ** What the engine asks of its libraries *)

Class Lib : Type := {
  (** [float(s)] returns, rather than raises. *)
  float_parses : string -> bool;
  (** [str(x)] for a float. *)
  str_float : float64 -> string;
  (** [pd.to_datetime(values, errors='coerce')]: [None] when the call
      raises, otherwise, value by value, the year of the parsed date or
      [None] for [NaT]. *)
  to_datetime : list string -> option (list (option Z));
  (** [re.search(r'\b(19|20)\d{2}\b', s)] followed by [int] of the match. *)
  search_year : string -> option Z;
  (** [values.quantile(q)] *)
  quantile : list float64 -> Q -> float64
}.

Definition Qgtb (a b : Q) : bool := negb (Qle_bool a b).
Definition Qltb (a b : Q) : bool := negb (Qle_bool b a).

(** Keywords of a year or date column name: year, then the Arabic words for
    year (three spellings) and for date, then date. *)
Definition year_keywords : list string :=
  ["year"; "عام"; "سنة"; "سنه"; "تاريخ"; "date"].

(** [1900 <= v <= 2100] *)
Definition year_like_value (v : float64) : bool :=
  fge v (of_int 1900) && fle v (of_int 2100).

(** [v < current_year - 10] *)
Definition old_value (current_year : Z) (v : float64) : bool :=
  flt v (of_int (current_year - 10)).

Definition old_year (current_year : Z) (y : Z) : bool :=
  (y <? current_year - 10)%Z.

(** One entry of [column_details]. *)
Record ColumnDetail : Type := {
  name : string;
  type : string;
  missing : nat
}.

(** The dictionary that [assess_data_quality] returns. *)
Record Report : Type := {
  total_rows : nat;
  total_columns : nat;
  overall_score : Q;
  completeness_score : Q;
  missing_values : nat;
  missing_percentage : Q;
  consistency_score : Q;
  consistency_issues : nat;
  type_inconsistencies : nat;
  uniqueness_score : Q;
  duplicate_rows : nat;
  duplicate_percentage : Q;
  validity_score : Q;
  validity_issues : nat;
  accuracy_score : Q;
  accuracy_issues : nat;
  timeliness_score : option Q;
  year_columns_found : nat;
  old_years_count : nat;
  timeliness_applicable : bool;
  column_details : list ColumnDetail
}.

Section Engine.

Context {L : Lib}.

(** [s.astype(str)] on the values. *)
Definition astype_str (s : Series) : list string :=
  match s with
  | SInt l => map str_of_int l
  | SFloat l => map str_float l
  | SObject l => map (fun o => match o with Some v => v | None => "None" end) l
  end.

(** [total_rows * total_columns if total_rows * total_columns > 0 else 1] *)
Definition total_cells (df : DataFrame) : nat :=
  let n := nrows df * length (columns df) in
  if 0 <? n then n else 1.

(** *** 1. Completeness *)

(** [df.isnull().sum().sum()] *)
Definition frame_isnull_sum (df : DataFrame) : nat :=
  sum_nat (map (fun c => isnull_sum (snd c)) (columns df)).

(** Returns [(missing_values, missing_percentage, completeness_score)]. *)
Definition completeness (df : DataFrame) : Result (nat * Q * Q) :=
  let missing_values := frame_isnull_sum df in
  ratio <- py_div (QofN missing_values) (QofN (total_cells df)) ;;
  let missing_percentage := (ratio * 100)%Q in
  let completeness_score := (100 - missing_percentage)%Q in
  Ok (missing_values, missing_percentage, completeness_score).

(** *** 2. Consistency *)

(** The mixed-type test of an [object] column: the new value of
    [type_inconsistencies]. *)
Definition mixed_types_step (s : Series) (type_inconsistencies : nat) : nat :=
  if is_object s then
    let non_null_values := astype_str (dropna s) in
    if 0 <? length non_null_values then
      let sample := head 100 non_null_values in
      let numeric_count := count float_parses sample in
      if Qgtb (QofN numeric_count) (QofN (length sample) * (2 # 10))
         && Qltb (QofN numeric_count) (QofN (length sample) * (8 # 10))
      then type_inconsistencies + 1
      else type_inconsistencies
    else type_inconsistencies
  else type_inconsistencies.

(** The e-mail test of a column: the new value of [consistency_issues]. *)
Definition email_step (s : Series) (consistency_issues : nat) : Result nat :=
  let non_null_values := astype_str (dropna s) in
  if 0 <? length non_null_values then
    has_at <- (if 0 <? length non_null_values
               then first <- iloc non_null_values 0 ;; Ok (contains "@" first)
               else Ok false) ;;
    if (has_at : bool) then
      let invalid_emails :=
        count (fun v => negb (re_match_anchored email_pattern v)) non_null_values in
      if 0 <? invalid_emails then Ok (consistency_issues + invalid_emails)
      else Ok consistency_issues
    else Ok consistency_issues
  else Ok consistency_issues.

(** The body of the consistency loop on the pair
    [(consistency_issues, type_inconsistencies)]. *)
Definition consistency_step (df : DataFrame) (col : string) (st : nat * nat)
  : Result (nat * nat) :=
  s <- getitem df col ;;
  let type_inconsistencies := mixed_types_step s (snd st) in
  consistency_issues <- email_step s (fst st) ;;
  Ok (consistency_issues, type_inconsistencies).

(** Returns [(consistency_issues, type_inconsistencies, consistency_score)]. *)
Definition consistency (df : DataFrame) : Result (nat * nat * Q) :=
  st <- for_each (consistency_step df) (labels df) (0, 0) ;;
  let consistency_issues := fst st in
  let type_inconsistencies := snd st in
  ratio <- py_div (QofN consistency_issues) (QofN (total_cells df)) ;;
  let consistency_score :=
    max0 (100 - ratio * 100 - QofN type_inconsistencies * 10)%Q in
  Ok (consistency_issues, type_inconsistencies, consistency_score).

(** *** 3. Uniqueness *)

(** [s.duplicated().sum()] *)
Definition series_duplicated_sum (s : Series) : nat :=
  duplicated_sum cell_same (series_cells s).

Definition uniqueness_step (df : DataFrame) (col : string)
  (duplicate_values_count : nat) : Result nat :=
  s <- getitem df col ;;
  if is_object s then Ok (duplicate_values_count + series_duplicated_sum s)
  else Ok duplicate_values_count.

(** Returns [(duplicate_rows, duplicate_percentage, uniqueness_score)]. *)
Definition uniqueness (df : DataFrame) : Result (nat * Q * Q) :=
  let duplicate_rows := frame_duplicated_sum df in
  duplicate_percentage <-
    (if 0 <? nrows df
     then ratio <- py_div (QofN duplicate_rows) (QofN (nrows df)) ;;
          Ok (ratio * 100)%Q
     else Ok 0%Q) ;;
  duplicate_values_count <- for_each (uniqueness_step df) (labels df) 0 ;;
  ratio <- py_div (QofN duplicate_values_count) (QofN (total_cells df)) ;;
  let uniqueness_score := max0 (100 - duplicate_percentage - ratio * 50)%Q in
  Ok (duplicate_rows, duplicate_percentage, uniqueness_score).

(** *** 4. Validity *)

(** ['age' in col.lower() or 'count' in col.lower() or 'quantity' in col.lower()] *)
Definition non_negative_name (col : string) : bool :=
  contains "age" (lower col) || contains "count" (lower col)
  || contains "quantity" (lower col).

(** The checks of one column whose label is [col]: the new value of
    [validity_issues]. *)
Definition validity_column (col : string) (s : Series) (validity_issues : nat)
  : nat :=
  let non_null_values := dropna s in
  if series_len non_null_values =? 0 then validity_issues
  else
    let issues1 :=
      if is_numeric s
      then validity_issues + count is_inf (numeric_values non_null_values)
      else validity_issues in
    let issues2 :=
      if is_numeric s then
        if non_negative_name col
        then issues1
             + count (fun v => flt v (of_int 0)) (numeric_values non_null_values)
        else issues1
      else issues1 in
    if is_object s then
      if 0 <? series_len non_null_values then
        let lengths := map py_len (astype_str non_null_values) in
        let max_length := list_max lengths in
        if 1000 <? max_length
        then issues2 + count (fun n => 1000 <? n) lengths
        else issues2
      else issues2
    else issues2.

Definition validity_step (df : DataFrame) (col : string) (validity_issues : nat)
  : Result nat :=
  s <- getitem df col ;;
  Ok (validity_column col s validity_issues).

(** Returns [(validity_issues, validity_score)]. *)
Definition validity (df : DataFrame) : Result (nat * Q) :=
  validity_issues <- for_each (validity_step df) (labels df) 0 ;;
  ratio <- py_div (QofN validity_issues) (QofN (total_cells df)) ;;
  Ok (validity_issues, max0 (100 - ratio * 100)%Q).

(** *** 5. Accuracy *)

(** [(values < lower_bound) | (values > upper_bound)], counted. *)
Definition outliers (lower_bound upper_bound : float64) (values : list float64)
  : nat :=
  count (fun v => flt v lower_bound || fgt v upper_bound) values.

Definition accuracy_column (s : Series) (accuracy_issues : nat) : nat :=
  if is_numeric s then
    let non_null_values := numeric_values (dropna s) in
    if 10 <? length non_null_values then
      let Q1 := quantile non_null_values (25 # 100) in
      let Q3 := quantile non_null_values (75 # 100) in
      let IQR := fsub Q3 Q1 in
      if fgt IQR (of_int 0) then
        let lower_bound := fsub Q1 (fscale 3 IQR) in
        let upper_bound := fadd Q3 (fscale 3 IQR) in
        accuracy_issues + outliers lower_bound upper_bound non_null_values
      else accuracy_issues
    else accuracy_issues
  else accuracy_issues.

Definition accuracy_step (df : DataFrame) (col : string) (accuracy_issues : nat)
  : Result nat :=
  s <- getitem df col ;;
  Ok (accuracy_column s accuracy_issues).

(** Returns [(accuracy_issues, accuracy_score)]. *)
Definition accuracy (df : DataFrame) : Result (nat * Q) :=
  accuracy_issues <- for_each (accuracy_step df) (labels df) 0 ;;
  ratio <- py_div (QofN accuracy_issues) (QofN (total_cells df)) ;;
  Ok (accuracy_issues, max0 (100 - ratio * 50)%Q).

(** *** 6. Timeliness *)

(** [any(keyword in col_lower for keyword in [...])] *)
Definition is_year_column (col : string) : bool :=
  existsb (fun keyword => contains keyword (lower col)) year_keywords.

(** The years that the pattern search extracts from the sampled values. *)
Definition extract_years (sample : list string) : list Z :=
  flat_map
    (fun v =>
       match search_year v with
       | Some year_val =>
           if (1900 <=? year_val)%Z && (year_val <=? 2100)%Z then [year_val]
           else []
       | None => []
       end)
    sample.

(** The years of the values that [to_datetime] parsed. *)
Definition parsed_years (parsed : list (option Z)) : list Z :=
  flat_map (fun d => match d with Some y => [y] | None => [] end) parsed.

(** The detection by the values of the column.  The state is
    [(year_columns_found, old_years_count)]; the result adds
    [year_values_found] in front. *)
Definition detect_by_values (current_year : Z) (s : Series) (st : nat * nat)
  : bool * (nat * nat) :=
  if is_numeric s then
    let non_null_values := numeric_values (dropna s) in
    if 0 <? length non_null_values then
      let year_like := count year_like_value non_null_values in
      if Qgtb (QofN year_like) (QofN (length non_null_values) * (7 # 10)) then
        (true, (fst st + 1,
                snd st + count (old_value current_year) non_null_values))
      else (false, st)
    else (false, st)
  else if is_object s then
    let non_null_values := astype_str (dropna s) in
    if 0 <? length non_null_values then
      let after_dates :=
        match to_datetime non_null_values with
        | Some parsed_dates =>
            let years := parsed_years parsed_dates in
            if Qgtb (QofN (length years))
                 (QofN (length non_null_values) * (5 # 10))
            then (true, (fst st + 1,
                         snd st + count (old_year current_year) years))
            else (false, st)
        | None => (false, st)
        end in
      if negb (fst after_dates) then
        let st1 := snd after_dates in
        let sample := head 100 non_null_values in
        let extracted_years := extract_years sample in
        let year_matches := length extracted_years in
        if Qgtb (QofN year_matches) (QofN (length sample) * (5 # 10)) then
          (true, (fst st1 + 1,
                  match extracted_years with
                  | [] => snd st1
                  | _ => snd st1 + count (old_year current_year) extracted_years
                  end))
        else (false, st1)
      else after_dates
    else (false, st)
  else (false, st).

(** The detection by the name of the column, when the values gave nothing. *)
Definition detect_by_name (current_year : Z) (col : string) (s : Series)
  (found : bool * (nat * nat)) : nat * nat :=
  let st := snd found in
  if is_year_column col && negb (fst found) then
    let non_null_values := dropna s in
    if 0 <? series_len non_null_values then
      if is_numeric s then
        let values := numeric_values non_null_values in
        if Qgtb (QofN (count year_like_value values))
             (QofN (length values) * (5 # 10))
        then (fst st + 1, snd st + count (old_value current_year) values)
        else st
      else st
    else st
  else st.

Definition timeliness_column (current_year : Z) (col : string) (s : Series)
  (st : nat * nat) : nat * nat :=
  detect_by_name current_year col s (detect_by_values current_year s st).

Definition timeliness_step (current_year : Z) (df : DataFrame) (col : string)
  (st : nat * nat) : Result (nat * nat) :=
  s <- getitem df col ;;
  Ok (timeliness_column current_year col s st).

(** Returns [(timeliness_score, year_columns_found, old_years_count)];
    [current_year] is the value of [datetime.now().year]. *)
Definition timeliness (current_year : Z) (df : DataFrame)
  : Result (option Q * nat * nat) :=
  st <- for_each (timeliness_step current_year df) (labels df) (0, 0) ;;
  let year_columns_found := fst st in
  let old_years_count := snd st in
  if (0 <? year_columns_found) && (0 <? nrows df) then
    ratio <- py_div (QofN old_years_count) (QofN (nrows df)) ;;
    let old_years_percentage := (ratio * 100)%Q in
    Ok (Some (max0 (100 - old_years_percentage * (15 # 10))%Q),
        year_columns_found, old_years_count)
  else Ok (None, year_columns_found, old_years_count).

(** *** Column details *)

Definition details_step (df : DataFrame) (col : string)
  (column_details : list ColumnDetail) : Result (list ColumnDetail) :=
  s <- getitem df col ;;
  Ok (column_details
        ++ [{| name := col;
               type := dtype_str (series_dtype s);
               missing := isnull_sum s |}])%list.

(** *** The report *)

(** [sum(applicable_scores) / len(applicable_scores) if applicable_scores else 0] *)
Definition mean_or_zero (applicable_scores : list Q) : Result Q :=
  match applicable_scores with
  | [] => Ok 0%Q
  | _ => py_div (py_sum applicable_scores) (QofN (length applicable_scores))
  end.

Definition assess_data_quality (current_year : Z) (df : DataFrame)
  : Result Report :=
  comp <- completeness df ;;
  cons <- consistency df ;;
  uniq <- uniqueness df ;;
  val <- validity df ;;
  acc <- accuracy df ;;
  time <- timeliness current_year df ;;
  column_details <- for_each (details_step df) (labels df) [] ;;
  let applicable_scores :=
    ([snd comp; snd cons; snd uniq; snd val; snd acc]
     ++ match fst (fst time) with
        | Some timeliness_score => [timeliness_score]
        | None => []
        end)%list in
  overall_score <- mean_or_zero applicable_scores ;;
  Ok {| total_rows := nrows df;
        total_columns := length (columns df);
        overall_score := overall_score;
        completeness_score := snd comp;
        missing_values := fst (fst comp);
        missing_percentage := snd (fst comp);
        consistency_score := snd cons;
        consistency_issues := fst (fst cons);
        type_inconsistencies := snd (fst cons);
        uniqueness_score := snd uniq;
        duplicate_rows := fst (fst uniq);
        duplicate_percentage := snd (fst uniq);
        validity_score := snd val;
        validity_issues := fst val;
        accuracy_score := snd acc;
        accuracy_issues := fst acc;
        timeliness_score := fst (fst time);
        year_columns_found := snd (fst time);
        old_years_count := snd time;
        timeliness_applicable := negb (is_none (fst (fst time)));
        column_details := column_details |}.

End Engine.

(** ** A reference instance of the library interface

    Enough of Python and pandas to run the engine on ASCII data: decimal
    numerals, ISO dates, the year pattern over ASCII word characters, and
    the quantile by linear interpolation, which is the default of pandas. *)

Module RefLib.

Definition is_digit (c : ascii) : bool := in_range "0" "9" c.

Fixpoint all_digits (s : string) : bool :=
  match s with
  | EmptyString => true
  | String c r => is_digit c && all_digits r
  end.

(** Digits, then optionally a point and digits. *)
Fixpoint unsigned_decimal (seen_digit : bool) (s : string) : bool :=
  match s with
  | EmptyString => seen_digit
  | String c r =>
      if is_digit c then unsigned_decimal true r
      else if Ascii.eqb c "." then seen_digit && all_digits r
      else false
  end.

Definition parses_as_float (s : string) : bool :=
  match s with
  | String "-" r | String "+" r => unsigned_decimal false r
  | _ => unsigned_decimal false s
  end.

Definition print_float (x : float64) : string :=
  match x with
  | NaN => "nan"
  | PInf => "inf"
  | NInf => "-inf"
  | Fin q =>
      match Qden (Qred q) with
      | xH => str_of_int (Qnum (Qred q)) ++ ".0"
      | d => str_of_int (Qnum (Qred q)) ++ "/" ++ str_of_int (Zpos d)
      end
  end.

Definition digit_value (c : ascii) : Z := Z.of_nat (nat_of_ascii c - 48).

Definition four_digits (a b c d : ascii) : option Z :=
  if is_digit a && is_digit b && is_digit c && is_digit d
  then Some (digit_value a * 1000 + digit_value b * 100
             + digit_value c * 10 + digit_value d)%Z
  else None.

(** [YYYY-MM-DD] *)
Definition iso_year (s : string) : option Z :=
  match s with
  | String a (String b (String c (String d (String "-"
      (String m1 (String m2 (String "-" (String d1 (String d2 EmptyString)))))))))
    => if is_digit m1 && is_digit m2 && is_digit d1 && is_digit d2
       then four_digits a b c d else None
  | _ => None
  end.

Definition parse_dates (values : list string) : option (list (option Z)) :=
  Some (map iso_year values).

Definition word_char (c : ascii) : bool := alnum c || Ascii.eqb c "_".

(** The first four-digit run 19dd or 20dd that stands between word
    boundaries; [prev_word] tells whether the character before is a word
    character. *)
Fixpoint search_year_from (prev_word : bool) (s : string) : option Z :=
  match s with
  | EmptyString => None
  | String a r =>
      let here :=
        match r with
        | String b (String c (String d t)) =>
            let ends := match t with
                        | EmptyString => true
                        | String e _ => negb (word_char e)
                        end in
            if negb prev_word && ends
               && Ascii.eqb b (if Ascii.eqb a "1" then "9" else "0")
               && (Ascii.eqb a "1" || Ascii.eqb a "2")
            then four_digits a b c d else None
        | _ => None
        end in
      match here with
      | Some y => Some y
      | None => search_year_from (word_char a) r
      end
  end.

Definition find_year (s : string) : option Z := search_year_from false s.

Fixpoint insert_sorted (x : float64) (l : list float64) : list float64 :=
  match l with
  | [] => [x]
  | y :: r => if fle x y then x :: l else y :: insert_sorted x r
  end.

Definition sort_values (l : list float64) : list float64 :=
  fold_right insert_sorted [] l.

(** Linear interpolation between the two order statistics around the
    position [(n - 1) * q]. *)
Definition linear_quantile (values : list float64) (q : Q) : float64 :=
  match sort_values values with
  | [] => NaN
  | sorted =>
      let position := (QofN (length sorted - 1) * q)%Q in
      let below := Z.to_nat (Qfloor position) in
      let fraction := (position - inject_Z (Qfloor position))%Q in
      let a := nth below sorted NaN in
      let b := nth (Nat.min (below + 1) (length sorted - 1)) sorted NaN in
      fadd a (fscale fraction (fsub b a))
  end.

Definition ref_lib : Lib := {|
  float_parses := parses_as_float;
  str_float := print_float;
  to_datetime := parse_dates;
  search_year := find_year;
  quantile := linear_quantile
|}.

End RefLib.

(** ** Tables of the test scenarios *)

(** [[{"age": -5, "name": "Bob"}, {"age": 30, "name": "Alice"}]] *)
Definition scenario_a : DataFrame :=
  {| nrows := 2;
     columns := [("age", SInt [-5; 30]%Z);
                 ("name", SObject [Some "Bob"; Some "Alice"])] |}.

(** A text column of three values, the second of which is no address. *)
Definition scenario_b : DataFrame :=
  {| nrows := 3;
     columns := [("emails",
                  SObject [Some "a@b.com"; Some "not-an-email"; Some "c@d.org"])] |}.

(** A numeric column of years. *)
Definition scenario_c : DataFrame :=
  {| nrows := 4;
     columns := [("year", SInt [2024; 2023; 2010; 1995]%Z)] |}.

(** Twelve readings, the last of which is far from the others. *)
Definition readings : DataFrame :=
  {| nrows := 12;
     columns := [("value",
                  SInt [1; 2; 3; 4; 5; 6; 7; 8; 9; 10; 11; 1000]%Z)] |}.

(** A table with three missing cells. *)
Definition gaps : DataFrame :=
  {| nrows := 3;
     columns := [("score", SFloat [Fin 1; NaN; NaN]);
                 ("city", SObject [None; Some "Riyadh"; Some "Jeddah"])] |}.

(** Three records whose note is null. *)
Definition null_notes : DataFrame :=
  {| nrows := 3;
     columns := [("id", SInt [1; 2; 3]%Z);
                 ("note", SObject [None; None; None])] |}.

(** Three rows that are the same. *)
Definition scenario_d : DataFrame :=
  {| nrows := 3;
     columns := [("a", SInt [1; 1; 1]%Z);
                 ("b", SObject [Some "x"; Some "x"; Some "x"])] |}.

(** Two columns that carry the same label. *)
Definition repeated_label : DataFrame :=
  {| nrows := 1;
     columns := [("a", SInt [1]%Z); ("a", SInt [2]%Z)] |}.

(** ** The per-column quantities that the statements speak of *)

Section Contributions.

Context {L : Lib}.

(** The e-mail test runs on a column: its first non-missing value, as a
    string, contains an at sign. *)
Definition email_check_runs (s : Series) : bool :=
  match astype_str (dropna s) with
  | [] => false
  | first :: _ => contains "@" first
  end.

(** The non-missing values of a column that do not match the e-mail
    pattern. *)
Definition invalid_email_count (s : Series) : nat :=
  count (fun v => negb (re_match_anchored email_pattern v))
    (astype_str (dropna s)).

(** What a column adds to [consistency_issues]. *)
Definition email_issues (s : Series) : nat :=
  if email_check_runs s then invalid_email_count s else 0.

(** The entry of a column in [column_details]. *)
Definition detail_of (c : string * Series) : ColumnDetail :=
  {| name := fst c;
     type := dtype_str (series_dtype (snd c));
     missing := isnull_sum (snd c) |}.

(** The state [(year_columns_found, old_years_count)] after the timeliness
    loop. *)
Definition timeliness_counts (current_year : Z) (df : DataFrame) : nat * nat :=
  fold_left (fun st c => timeliness_column current_year (fst c) (snd c) st)
    (columns df) (0, 0).

End Contributions.

(** The non-missing values of a text column, in row order. *)
Fixpoint present (cells : list (option string)) : list string :=
  match cells with
  | [] => []
  | Some v :: rest => v :: present rest
  | None :: rest => present rest
  end.

(** What a column adds to [duplicate_values_count]. *)
Definition column_duplicates (s : Series) : nat :=
  if is_object s then duplicated_sum cell_same (series_cells s) else 0.

(** Every cell of the column is missing. *)
Definition all_missing (s : Series) : Prop := series_len (dropna s) = 0.

(** The column with each of its cells a second time, after the first
    ones. *)
Definition series_twice (s : Series) : Series :=
  match s with
  | SInt l => SInt (l ++ l)
  | SFloat l => SFloat (l ++ l)
  | SObject l => SObject (l ++ l)
  end.

(** A table of twice as many rows, each column of which is doubled by
    [double]. *)
Definition doubled_with (double : Series -> Series) (df : DataFrame)
  : DataFrame :=
  {| nrows := nrows df + nrows df;
     columns := map (fun c => (fst c, double (snd c))) (columns df) |}.

(** The table with every row a second time, after the rows:
    [pd.concat([df, df])]. *)
Definition duplicate_every_row (df : DataFrame) : DataFrame :=
  doubled_with series_twice df.

(** Every element a second time, next to the first. *)
Definition twice_each {A : Type} (l : list A) : list A :=
  flat_map (fun x => [x; x]) l.

Definition series_repeat (s : Series) : Series :=
  match s with
  | SInt l => SInt (twice_each l)
  | SFloat l => SFloat (twice_each l)
  | SObject l => SObject (twice_each l)
  end.

(** The table with every row followed by a copy of it:
    [df.loc[df.index.repeat(2)]]. *)
Definition repeat_every_row (df : DataFrame) : DataFrame :=
  doubled_with series_repeat df.

Definition in_0_100 (x : Q) : Prop := (0 <= x /\ x <= 100)%Q.

(** * The loader and the web glue

    [load_data] of [data_quality.py], and [allowed_file] and
    [convert_nan_to_none] of [app.py]. *)

(** ** Python values

    What [json.load] returns and what a report or a preview record holds:
    [None], booleans, integers, strings, floats, numpy scalars, lists and
    dictionaries with string keys (in insertion order). *)

#[warnings="-register-all"]
Inductive pyval : Type :=
  | PNone
  | PBool (b : bool)
  | PInt (z : Z)
  | PStr (s : string)
  | PFloat (x : float64)
  | NpInt (z : Z)
  | NpFloat (x : float64)
  | PList (l : list pyval)
  | PDict (d : list (string * pyval)).

(** [np.isnan(x) or np.isinf(x)] *)
Definition non_finite (x : float64) : bool := is_nan x || is_inf x.

(** [convert_nan_to_none].  The branches are tried in the order of the
    source: dictionaries, lists, Python floats that are NaN or infinite,
    numpy integers and floats, and everything else.  A [np.float64] is also
    a Python float, so a non-finite one leaves by the third branch and
    another numpy float by the fourth, with the same result. *)
Fixpoint convert_nan_to_none (obj : pyval) : pyval :=
  match obj with
  | PDict d => PDict (map (fun kv => (fst kv, convert_nan_to_none (snd kv))) d)
  | PList l => PList (map convert_nan_to_none l)
  | PFloat x => if non_finite x then PNone else obj
  | NpInt z => PInt z
  | NpFloat x => if non_finite x then PNone else PFloat x
  | _ => obj
  end.

(** No float that is NaN or infinite and no numpy scalar is reached through
    the lists and the dictionary values of [v]. *)
Fixpoint json_safe (v : pyval) : bool :=
  match v with
  | PFloat x => negb (non_finite x)
  | NpInt _ | NpFloat _ => false
  | PList l => forallb json_safe l
  | PDict d => forallb (fun kv => json_safe (snd kv)) d
  | _ => true
  end.

(** ** File names *)

(** [s.rsplit('.', 1)]: the string itself when it has no dot, otherwise
    what stands before the last dot and what stands after it. *)
Fixpoint rsplit_dot (s : string) : list string :=
  match s with
  | EmptyString => [EmptyString]
  | String c r =>
      match rsplit_dot r with
      | [before; after] => [String c before; after]
      | _ => if Ascii.eqb c "." then [EmptyString; r] else [s]
      end
  end.

Definition ALLOWED_EXTENSIONS : list string := ["csv"; "xlsx"; "xls"; "json"].

Definition in_strings (s : string) (l : list string) : bool :=
  existsb (String.eqb s) l.

(** [allowed_file] of [app.py]:
    ['.' in filename and filename.rsplit('.', 1)[1].lower() in ALLOWED_EXTENSIONS] *)
Definition allowed_file (filename : string) : Result bool :=
  if contains "." filename then
    ext <- iloc (rsplit_dot filename) 1 ;;
    Ok (in_strings (lower ext) ALLOWED_EXTENSIONS)
  else Ok false.

(** ** [load_data] *)

(** What a call of the loader ends with: the value it returns, the
    [ValueError] it raises with its message, or another exception. *)
Inductive Outcome (A : Type) : Type :=
  | Returns (a : A)
  | ValueError (msg : string)
  | OtherError (e : exn).

Arguments Returns {A} a.
Arguments ValueError {A} msg.
Arguments OtherError {A} e.

(** The files and the readers of pandas and [json] as the loader sees them.
    A reader answers its value or, when it raises, [str(e)] of the
    exception. *)
Record Readers : Type := {
  (** [open(file_path, 'rb')] and [f.read(8)]: [None] when either raises. *)
  read_first_bytes : string -> option (list ascii);
  (** [pd.read_csv(file_path)] *)
  read_csv : string -> string + DataFrame;
  (** [pd.read_excel(file_path)] *)
  read_excel : string -> string + DataFrame;
  (** [open(file_path, 'r', encoding='utf-8')] and [json.load(f)] *)
  json_load : string -> string + pyval;
  (** [pd.DataFrame(data)] *)
  DataFrame_of : pyval -> string + DataFrame
}.

(** [x or y] on an optional string: [None] and the empty string are false. *)
Definition or_else (x : option string) (y : string) : string :=
  match x with
  | Some (String c r) => String c r
  | _ => y
  end.

(** The extension that [load_data] reads off the names: [None] when neither
    name has a dot. *)
Definition name_extension (filename : string) (original_filename : option string)
  : Result (option string) :=
  let check_filename := or_else original_filename filename in
  if contains "." check_filename then
    part <- iloc (rsplit_dot check_filename) 1 ;; Ok (Some (lower part))
  else if contains "." filename then
    part <- iloc (rsplit_dot filename) 1 ;; Ok (Some (lower part))
  else Ok None.

Definition cannot_determine : string :=
  "Cannot determine file type. Please ensure your file has an extension (.csv, .xlsx, .xls, or .json)".

Definition byte (n : nat) : ascii := ascii_of_nat n.

Definition bytes_eqb (a b : list ascii) : bool :=
  (length a =? length b) && forallb (fun p => Ascii.eqb (fst p) (snd p)) (combine a b).

(** The type that the first bytes of the file give, inside the [try] whose
    bare [except] turns every exception into the [ValueError] of
    [cannot_determine]. *)
Definition sniff_extension (io : Readers) (file_path : string) : Outcome string :=
  match read_first_bytes io file_path with
  | None => ValueError cannot_determine
  | Some first_bytes =>
      if bytes_eqb (firstn 2 first_bytes) ["P"; "K"]%char then Returns "xlsx"
      else if bytes_eqb (firstn 4 first_bytes) [byte 208; byte 207; byte 17; byte 224]
      then Returns "xls"
      else
        match iloc first_bytes 0 with
        | Ok b0 =>
            if Ascii.eqb b0 "{" || Ascii.eqb b0 "["
            then Returns "json" else Returns "csv"
        | Raise _ => ValueError cannot_determine
        end
  end.

(** The JSON branch: a list is a table of records, a dictionary is a table
    of one record, anything else is refused. *)
Definition read_json (io : Readers) (file_path : string) : string + DataFrame :=
  match json_load io file_path with
  | inl msg => inl msg
  | inr data =>
      match data with
      | PList _ => DataFrame_of io data
      | PDict _ => DataFrame_of io (PList [data])
      | _ => inl "Unsupported JSON structure"
      end
  end.

Definition unsupported_file_type (ext : string) : string :=
  "Unsupported file type: " ++ ext ++ ". Please upload CSV, Excel, or JSON files.".

(** The body of the second [try]: the reader that the extension selects.
    Its answer is the frame or [str(e)] of the exception raised. *)
Definition read_as (io : Readers) (ext file_path : string) : string + DataFrame :=
  if String.eqb ext "csv" then read_csv io file_path
  else if in_strings ext ["xlsx"; "xls"] then read_excel io file_path
  else if String.eqb ext "json" then read_json io file_path
  else inl (unsupported_file_type ext).

(** [except Exception as e: raise ValueError(f"Error loading file: {str(e)}")] *)
Definition wrap_loading (r : string + DataFrame) : Outcome DataFrame :=
  match r with
  | inr df => Returns df
  | inl msg => ValueError ("Error loading file: " ++ msg)
  end.

(** [not ext]: no extension, or an empty one. *)
Definition no_extension (ext : option string) : bool :=
  match ext with
  | None | Some EmptyString => true
  | Some _ => false
  end.

Definition load_data (io : Readers) (file_path filename : string)
  (original_filename : option string) : Outcome DataFrame :=
  match name_extension filename original_filename with
  | Raise e => OtherError e
  | Ok ext =>
      if no_extension ext then
        match sniff_extension io file_path with
        | Returns ext' => wrap_loading (read_as io ext' file_path)
        | ValueError msg => ValueError msg
        | OtherError e => OtherError e
        end
      else
        match ext with
        | Some ext' => wrap_loading (read_as io ext' file_path)
        | None => ValueError cannot_determine
        end
  end.

(** ** Reordered rows *)

(** The elements of [l] at the given positions, in the order of the
    positions. *)
Definition cells_at {A : Type} (l : list A) (positions : list nat) : list A :=
  flat_map (fun i => match nth_error l i with
                     | Some x => [x]
                     | None => []
                     end) positions.

Definition series_at (positions : list nat) (s : Series) : Series :=
  match s with
  | SInt l => SInt (cells_at l positions)
  | SFloat l => SFloat (cells_at l positions)
  | SObject l => SObject (cells_at l positions)
  end.

(** The table with its rows taken at the given positions:
    [df.iloc[positions]] for positions inside the table. *)
Definition reorder_rows (positions : list nat) (df : DataFrame) : DataFrame :=
  {| nrows := length positions;
     columns := map (fun c => (fst c, series_at positions (snd c))) (columns df) |}.

(** ** Further tables and files of the examples *)

(** Two columns and no row. *)
Definition no_rows : DataFrame :=
  {| nrows := 0;
     columns := [("id", SInt []); ("note", SObject [])] |}.

(** Ten text columns, each with one numeral and one word. *)
Definition ten_mixed : DataFrame :=
  {| nrows := 2;
     columns := map (fun label => (label, SObject [Some "1"; Some "a"]))
                  ["c0"; "c1"; "c2"; "c3"; "c4"; "c5"; "c6"; "c7"; "c8"; "c9"] |}.

(** A disk on which every path holds the CSV text of the table of ages and
    names: the CSV reader answers that table, the two other readers fail. *)
Definition csv_disk : Readers :=
  {| read_first_bytes := fun _ => Some ["a"; "g"; "e"; ","; "n"; "a"; "m"; "e"]%char;
     read_csv := fun _ => inr scenario_a;
     read_excel := fun _ => inl "File is not a zip file";
     json_load := fun _ => inl "Expecting value: line 1 column 1 (char 0)";
     DataFrame_of := fun _ => inl "DataFrame constructor not properly called!" |}.

(** A record as the preview holds it, with a NaN and numpy scalars. *)
Definition preview_record : pyval :=
  PDict [("age", NpInt 30); ("score", PFloat NaN);
         ("ratio", NpFloat (Fin (1 # 2))); ("tags", PList [PStr "x"; NpFloat PInf])].

(** * Properties *)

(** ** Numbers *)

Lemma QofN_nonneg (n : nat) : (0 <= QofN n)%Q.
Proof.
  unfold QofN, Qle. simpl. lia.
Qed.

Lemma QofN_pos (n : nat) : 0 < n -> (0 < QofN n)%Q.
Proof.
  intros H. unfold QofN, Qlt. simpl. lia.
Qed.

Lemma QofN_le (n m : nat) : n <= m -> (QofN n <= QofN m)%Q.
Proof.
  intros H. unfold QofN, Qle. simpl. lia.
Qed.

Lemma QofN_mult (n m : nat) : (QofN (n * m) == QofN n * QofN m)%Q.
Proof.
  unfold QofN. rewrite Nat2Z.inj_mul, inject_Z_mult. reflexivity.
Qed.

Lemma py_div_ok (a : Q) (n : nat) :
  0 < n -> py_div a (QofN n) = Ok (a / QofN n)%Q.
Proof.
  intros H. unfold py_div.
  destruct (Qeq_bool (QofN n) 0) eqn:E; [| reflexivity].
  apply Qeq_bool_eq in E. pose proof (QofN_pos H) as P.
  rewrite E in P. exfalso. revert P. apply Qlt_irrefl.
Qed.

Lemma ratio_nonneg (a b : nat) : 0 < b -> (0 <= QofN a / QofN b)%Q.
Proof.
  intros H. apply Qle_shift_div_l.
  - now apply QofN_pos.
  - rewrite Qmult_0_l. apply QofN_nonneg.
Qed.

Lemma ratio_le_1 (a b : nat) : 0 < b -> a <= b -> (QofN a / QofN b <= 1)%Q.
Proof.
  intros H Hab. apply Qle_shift_div_r.
  - now apply QofN_pos.
  - rewrite Qmult_1_l. now apply QofN_le.
Qed.

Lemma max0_nonneg (x : Q) : (0 <= max0 x)%Q.
Proof.
  unfold max0. destruct (Qle_bool x 0) eqn:E.
  - apply Qle_refl.
  - destruct (Qlt_le_dec 0 x) as [P | P].
    + now apply Qlt_le_weak.
    + apply Qle_bool_iff in P. congruence.
Qed.

Lemma max0_le (x b : Q) : (0 <= b)%Q -> (x <= b)%Q -> (max0 x <= b)%Q.
Proof.
  intros Hb Hx. unfold max0. now destruct (Qle_bool x 0).
Qed.

(** [max0] is monotone. *)
Lemma max0_mono (x y : Q) : (x <= y)%Q -> (max0 x <= max0 y)%Q.
Proof.
  intros H. unfold max0.
  destruct (Qle_bool x 0) eqn:Ex; destruct (Qle_bool y 0) eqn:Ey.
  - apply Qle_refl.
  - destruct (Qlt_le_dec 0 y) as [P | P].
    + now apply Qlt_le_weak.
    + apply Qle_bool_iff in P. congruence.
  - apply Qle_bool_iff in Ey. apply Qle_trans with y; assumption.
  - assumption.
Qed.

(** [max0 x] is [x] itself when that is positive. *)
Lemma max0_spec (x : Q) : (max0 x == Qmax 0 x)%Q.
Proof.
  unfold max0. destruct (Qle_bool x 0) eqn:E.
  - apply Qle_bool_iff in E. symmetry. now apply Q.max_l.
  - symmetry. apply Q.max_r.
    destruct (Qlt_le_dec 0 x) as [P | P].
    + now apply Qlt_le_weak.
    + apply Qle_bool_iff in P. congruence.
Qed.

Lemma count_le_length {A : Type} (p : A -> bool) (l : list A) :
  count p l <= length l.
Proof.
  unfold count. apply filter_length_le.
Qed.

(** ** The error monad and the loops over the columns *)

Lemma bind_ok {A B : Type} (m : Result A) (k : A -> Result B) (b : B) :
  bind m k = Ok b -> exists a, m = Ok a /\ k a = Ok b.
Proof.
  destruct m as [a | e]; simpl; intros H; [eauto | discriminate].
Qed.

Lemma filter_label_length (cols : list (string * Series)) (col : string) :
  length (filter (fun c => String.eqb (fst c) col) cols)
  = count_occ string_dec (map fst cols) col.
Proof.
  induction cols as [| c cols IH]; simpl; [reflexivity |].
  destruct (String.eqb_spec (fst c) col) as [E | E];
    destruct (string_dec (fst c) col) as [E' | E']; try contradiction;
    simpl; now rewrite IH.
Qed.

Lemma getitem_ok_once (df : DataFrame) (col : string) (s : Series) :
  getitem df col = Ok s -> count_occ string_dec (labels df) col = 1.
Proof.
  unfold getitem, labels. intros H.
  rewrite <- filter_label_length.
  destruct (filter _ (columns df)) as [| c [| c' r]]; simpl; congruence.
Qed.

Lemma getitem_unique (df : DataFrame) (c : string * Series) :
  NoDup (labels df) -> In c (columns df) -> getitem df (fst c) = Ok (snd c).
Proof.
  intros Hnd Hin.
  assert (Hc : count_occ string_dec (labels df) (fst c) = 1).
  { apply NoDup_count_occ'; [assumption |]. unfold labels. now apply in_map. }
  assert (Hf : In c (filter (fun c' => String.eqb (fst c') (fst c)) (columns df))).
  { apply filter_In. split; [assumption | apply String.eqb_refl]. }
  unfold labels in Hc. rewrite <- filter_label_length in Hc.
  unfold getitem.
  destruct (filter _ (columns df)) as [| c1 [| c2 r]]; simpl in Hc; try discriminate.
  destruct Hf as [-> | []]. reflexivity.
Qed.

(** A loop over the labels whose body starts with [df[col]] and then
    returns: under distinct labels it is the fold of the body over the
    columns. *)
Lemma for_each_columns {S : Type} (df : DataFrame)
  (body : string -> S -> Result S) (g : string -> Series -> S -> S) :
  NoDup (labels df) ->
  (forall col s st, getitem df col = Ok s -> body col st = Ok (g col s st)) ->
  forall (l : list (string * Series)) (st : S),
    incl l (columns df) ->
    for_each body (map fst l) st
    = Ok (fold_left (fun st c => g (fst c) (snd c) st) l st).
Proof.
  intros Hnd Hbody l. induction l as [| c l IH]; intros st Hl; simpl.
  - reflexivity.
  - rewrite (Hbody (fst c) (snd c) st).
    + simpl. apply IH. intros x Hx. apply Hl. now right.
    + apply getitem_unique; [assumption |]. apply Hl. now left.
Qed.

(** A loop whose body starts with [df[col]] returns only when every label
    occurs once. *)
Lemma for_each_labels_once {S : Type} (df : DataFrame)
  (body : string -> S -> Result S) :
  (forall col st st', body col st = Ok st' -> exists s, getitem df col = Ok s) ->
  forall (l : list string) (st st' : S),
    for_each body l st = Ok st' ->
    forall col, In col l -> count_occ string_dec (labels df) col = 1.
Proof.
  intros Hbody l. induction l as [| x l IH]; intros st st' H col Hin.
  - destruct Hin.
  - simpl in H. apply bind_ok in H. destruct H as [st1 [H1 H2]].
    destruct Hin as [<- | Hin].
    + destruct (Hbody _ _ _ H1) as [s Hs]. eapply getitem_ok_once; eauto.
    + eapply IH; eauto.
Qed.

Lemma fold_left_add {A : Type} (f : A -> nat) (l : list A) (a : nat) :
  fold_left (fun acc c => acc + f c) l a = a + sum_nat (map f l).
Proof.
  revert a. induction l as [| x l IH]; intros a; simpl.
  - lia.
  - rewrite IH. lia.
Qed.

(** ** The analysers, one by one *)

Section Analysers.

Context {L : Lib}.

Lemma total_cells_pos (df : DataFrame) : 0 < total_cells df.
Proof.
  unfold total_cells. destruct (0 <? nrows df * length (columns df)) eqn:E.
  - now apply Nat.ltb_lt in E.
  - lia.
Qed.

Lemma completeness_ok (df : DataFrame) :
  completeness df
  = Ok (frame_isnull_sum df,
        (QofN (frame_isnull_sum df) / QofN (total_cells df) * 100)%Q,
        (100 - QofN (frame_isnull_sum df) / QofN (total_cells df) * 100)%Q).
Proof.
  unfold completeness. rewrite py_div_ok by apply total_cells_pos. reflexivity.
Qed.

Lemma email_step_ok (s : Series) (issues : nat) :
  email_step s issues = Ok (issues + email_issues s).
Proof.
  unfold email_step, email_issues, email_check_runs, invalid_email_count.
  destruct (astype_str (dropna s)) as [| v vs] eqn:E; simpl.
  - f_equal. lia.
  - destruct (contains "@" v); simpl.
    + match goal with
      | |- context [0 <? ?n] => destruct (Nat.ltb_spec 0 n) as [P | P]
      end; f_equal; lia.
    + f_equal. lia.
Qed.

Lemma mixed_types_step_add (s : Series) (n : nat) :
  mixed_types_step s n = n + mixed_types_step s 0.
Proof.
  unfold mixed_types_step.
  repeat match goal with
         | |- context [if ?b then _ else _] => destruct b
         end; lia.
Qed.

Lemma validity_column_add (col : string) (s : Series) (n : nat) :
  validity_column col s n = n + validity_column col s 0.
Proof.
  unfold validity_column.
  repeat match goal with
         | |- context [if ?b then _ else _] => destruct b
         end; lia.
Qed.

Lemma accuracy_column_add (s : Series) (n : nat) :
  accuracy_column s n = n + accuracy_column s 0.
Proof.
  unfold accuracy_column.
  repeat match goal with
         | |- context [if ?b then _ else _] => destruct b
         end; lia.
Qed.

Variable df : DataFrame.
Hypothesis distinct : NoDup (labels df).

Lemma consistency_loop_ok :
  for_each (consistency_step df) (labels df) (0, 0)
  = Ok (sum_nat (map (fun c => email_issues (snd c)) (columns df)),
        sum_nat (map (fun c => mixed_types_step (snd c) 0) (columns df))).
Proof.
  unfold labels.
  rewrite for_each_columns
    with (df := df) (g := fun (_ : string) s st =>
                 (fst st + email_issues s, mixed_types_step s (snd st)))
    by (try assumption; try apply incl_refl;
        intros col s st Hs; unfold consistency_step; rewrite Hs; simpl;
        rewrite email_step_ok; reflexivity).
  f_equal.
  assert (G : forall l st,
             fold_left (fun st (c : string * Series) =>
                          (fst st + email_issues (snd c),
                           mixed_types_step (snd c) (snd st))) l st
             = (fst st + sum_nat (map (fun c => email_issues (snd c)) l),
                snd st + sum_nat (map (fun c => mixed_types_step (snd c) 0) l))).
  { induction l as [| c l IH]; intros st; simpl.
    - destruct st; simpl; f_equal; lia.
    - rewrite IH. simpl. rewrite (mixed_types_step_add (snd c) (snd st)).
      f_equal; lia. }
  rewrite G. reflexivity.
Qed.

Lemma consistency_ok :
  let issues := sum_nat (map (fun c => email_issues (snd c)) (columns df)) in
  let mixed := sum_nat (map (fun c => mixed_types_step (snd c) 0) (columns df)) in
  consistency df
  = Ok (issues, mixed,
        max0 (100 - QofN issues / QofN (total_cells df) * 100
              - QofN mixed * 10)%Q).
Proof.
  unfold consistency. rewrite consistency_loop_ok. simpl.
  rewrite py_div_ok by apply total_cells_pos. reflexivity.
Qed.

Lemma uniqueness_loop_ok :
  for_each (uniqueness_step df) (labels df) 0
  = Ok (sum_nat (map (fun c => if is_object (snd c)
                               then series_duplicated_sum (snd c) else 0)
                   (columns df))).
Proof.
  unfold labels.
  rewrite for_each_columns
    with (df := df) (g := fun (_ : string) s n =>
                 n + (if is_object s then series_duplicated_sum s else 0))
    by (try assumption; try apply incl_refl;
        intros col s st Hs; unfold uniqueness_step; rewrite Hs; simpl;
        destruct (is_object s); f_equal; lia).
  now rewrite (fold_left_add
                 (fun c : string * Series =>
                    if is_object (snd c) then series_duplicated_sum (snd c) else 0)).
Qed.

Lemma validity_loop_ok :
  for_each (validity_step df) (labels df) 0
  = Ok (sum_nat (map (fun c => validity_column (fst c) (snd c) 0) (columns df))).
Proof.
  unfold labels.
  rewrite for_each_columns
    with (df := df) (g := fun col s n => n + validity_column col s 0)
    by (try assumption; try apply incl_refl;
        intros col s st Hs; unfold validity_step; rewrite Hs; simpl;
        now rewrite validity_column_add).
  now rewrite (fold_left_add
                 (fun c : string * Series => validity_column (fst c) (snd c) 0)).
Qed.

Lemma accuracy_loop_ok :
  for_each (accuracy_step df) (labels df) 0
  = Ok (sum_nat (map (fun c => accuracy_column (snd c) 0) (columns df))).
Proof.
  unfold labels.
  rewrite for_each_columns
    with (df := df) (g := fun (_ : string) s n => n + accuracy_column s 0)
    by (try assumption; try apply incl_refl;
        intros col s st Hs; unfold accuracy_step; rewrite Hs; simpl;
        now rewrite accuracy_column_add).
  now rewrite (fold_left_add
                 (fun c : string * Series => accuracy_column (snd c) 0)).
Qed.

Lemma timeliness_loop_ok (current_year : Z) :
  for_each (timeliness_step current_year df) (labels df) (0, 0)
  = Ok (timeliness_counts current_year df).
Proof.
  unfold labels, timeliness_counts.
  now rewrite for_each_columns
    with (df := df) (g := fun col s st => timeliness_column current_year col s st)
    by (try assumption; try apply incl_refl;
        intros col s st Hs; unfold timeliness_step; rewrite Hs; reflexivity).
Qed.

Lemma details_loop_ok :
  for_each (details_step df) (labels df) [] = Ok (map detail_of (columns df)).
Proof.
  unfold labels.
  rewrite for_each_columns
    with (df := df) (g := fun col s acc =>
                 (acc ++ [{| name := col;
                             type := dtype_str (series_dtype s);
                             missing := isnull_sum s |}])%list)
    by (try assumption; try apply incl_refl;
        intros col s st Hs; unfold details_step; rewrite Hs; reflexivity).
  f_equal.
  assert (G : forall l acc,
             fold_left (fun acc (c : string * Series) =>
                          (acc ++ [{| name := fst c;
                                      type := dtype_str (series_dtype (snd c));
                                      missing := isnull_sum (snd c) |}])%list)
               l acc
             = (acc ++ map detail_of l)%list).
  { induction l as [| c l IH]; intros acc; simpl.
    - now rewrite app_nil_r.
    - rewrite IH, <- app_assoc. reflexivity. }
  apply G.
Qed.

Lemma uniqueness_ok :
  let duplicate_rows := frame_duplicated_sum df in
  let duplicate_percentage :=
    if 0 <? nrows df
    then (QofN duplicate_rows / QofN (nrows df) * 100)%Q else 0%Q in
  let duplicate_values_count :=
    sum_nat (map (fun c => if is_object (snd c)
                           then series_duplicated_sum (snd c) else 0)
               (columns df)) in
  uniqueness df
  = Ok (duplicate_rows, duplicate_percentage,
        max0 (100 - duplicate_percentage
              - QofN duplicate_values_count / QofN (total_cells df) * 50)%Q).
Proof.
  unfold uniqueness. rewrite uniqueness_loop_ok.
  destruct (Nat.ltb_spec 0 (nrows df)) as [P | P].
  - rewrite py_div_ok by assumption. simpl.
    rewrite py_div_ok by apply total_cells_pos. reflexivity.
  - simpl. rewrite py_div_ok by apply total_cells_pos. reflexivity.
Qed.

Lemma validity_ok :
  let issues :=
    sum_nat (map (fun c => validity_column (fst c) (snd c) 0) (columns df)) in
  validity df
  = Ok (issues, max0 (100 - QofN issues / QofN (total_cells df) * 100)%Q).
Proof.
  unfold validity. rewrite validity_loop_ok. simpl.
  rewrite py_div_ok by apply total_cells_pos. reflexivity.
Qed.

Lemma accuracy_ok :
  let issues :=
    sum_nat (map (fun c => accuracy_column (snd c) 0) (columns df)) in
  accuracy df
  = Ok (issues, max0 (100 - QofN issues / QofN (total_cells df) * 50)%Q).
Proof.
  unfold accuracy. rewrite accuracy_loop_ok. simpl.
  rewrite py_div_ok by apply total_cells_pos. reflexivity.
Qed.

Lemma timeliness_ok (current_year : Z) :
  let st := timeliness_counts current_year df in
  timeliness current_year df
  = Ok (if (0 <? fst st) && (0 <? nrows df)
        then Some (max0 (100 - QofN (snd st) / QofN (nrows df) * 100
                               * (15 # 10))%Q)
        else None,
        fst st, snd st).
Proof.
  unfold timeliness. rewrite timeliness_loop_ok. simpl.
  destruct (Nat.ltb_spec 0 (fst (timeliness_counts current_year df))) as [P | P];
    [| reflexivity].
  destruct (Nat.ltb_spec 0 (nrows df)) as [R | R]; [| reflexivity].
  simpl. rewrite py_div_ok by assumption. reflexivity.
Qed.

(** On a frame whose labels are distinct the engine returns a report. *)
Lemma assess_returns (current_year : Z) :
  exists r, assess_data_quality current_year df = Ok r.
Proof.
  unfold assess_data_quality.
  rewrite completeness_ok, consistency_ok, uniqueness_ok, validity_ok,
    accuracy_ok, timeliness_ok, details_loop_ok.
  cbv beta iota zeta delta [bind fst snd].
  match goal with
  | |- context [mean_or_zero ?l] => assert (M : exists m, mean_or_zero l = Ok m)
  end.
  { match goal with
    | |- context [if ?b then Some ?x else None] =>
        destruct b; simpl; unfold py_div; simpl; eauto
    end. }
  destruct M as [m M]. rewrite M. eauto.
Qed.

End Analysers.

(** ** The report *)

Section ReportFacts.

Context {L : Lib}.

(** The fields of a report are the results of the analysers. *)
Lemma assess_fields (current_year : Z) (df : DataFrame) (r : Report) :
  assess_data_quality current_year df = Ok r ->
  completeness df
  = Ok (missing_values r, missing_percentage r, completeness_score r)
  /\ consistency df
     = Ok (consistency_issues r, type_inconsistencies r, consistency_score r)
  /\ uniqueness df
     = Ok (duplicate_rows r, duplicate_percentage r, uniqueness_score r)
  /\ validity df = Ok (validity_issues r, validity_score r)
  /\ accuracy df = Ok (accuracy_issues r, accuracy_score r)
  /\ timeliness current_year df
     = Ok (timeliness_score r, year_columns_found r, old_years_count r)
  /\ for_each (details_step df) (labels df) [] = Ok (column_details r)
  /\ mean_or_zero
       ([completeness_score r; consistency_score r; uniqueness_score r;
         validity_score r; accuracy_score r]
        ++ match timeliness_score r with
           | Some t => [t]
           | None => []
           end)
     = Ok (overall_score r)
  /\ timeliness_applicable r = negb (is_none (timeliness_score r))
  /\ total_rows r = nrows df
  /\ total_columns r = length (columns df).
Proof.
  unfold assess_data_quality. intros H.
  apply bind_ok in H. destruct H as [[[m mp] cs] [H1 H]].
  apply bind_ok in H. destruct H as [[[ci ti] cos] [H2 H]].
  apply bind_ok in H. destruct H as [[[dr dp] us] [H3 H]].
  apply bind_ok in H. destruct H as [[vi vs] [H4 H]].
  apply bind_ok in H. destruct H as [[ai acs] [H5 H]].
  apply bind_ok in H. destruct H as [[[ts ycf] oyc] [H6 H]].
  apply bind_ok in H. destruct H as [cd [H7 H]].
  apply bind_ok in H. destruct H as [ov [H8 H]].
  injection H as <-. simpl in *.
  repeat split; assumption.
Qed.

(** A report is returned only for distinct labels. *)
Lemma assess_labels_distinct (current_year : Z) (df : DataFrame) (r : Report) :
  assess_data_quality current_year df = Ok r -> NoDup (labels df).
Proof.
  intros H. apply assess_fields in H.
  destruct H as (_ & _ & _ & _ & _ & _ & H & _).
  apply NoDup_count_occ' with (decA := string_dec).
  intros col Hin.
  eapply for_each_labels_once with (body := details_step df); eauto.
  intros c st st' Hb. unfold details_step in Hb.
  apply bind_ok in Hb. destruct Hb as [s [Hs _]]. eauto.
Qed.

End ReportFacts.

(** ** Duplicates *)

Lemma f_same_refl (x : float64) : f_same x x = true.
Proof.
  destruct x; simpl; try reflexivity. apply Qeq_bool_iff. apply Qeq_refl.
Qed.

Lemma cell_same_refl (a : cell) : cell_same a a = true.
Proof.
  destruct a as [z | x | [v |]]; simpl.
  - apply Z.eqb_refl.
  - apply f_same_refl.
  - apply String.eqb_refl.
  - reflexivity.
Qed.

Lemma row_same_refl (r : list (option cell)) : row_same r r = true.
Proof.
  induction r as [| [a |] r IH]; simpl; [reflexivity | | assumption].
  now rewrite cell_same_refl.
Qed.

Section Duplicated.

Variable A : Type.
Variable same : A -> A -> bool.
Hypothesis same_refl : forall x, same x x = true.

Lemma duplicated_from_le (seen l : list A) :
  duplicated_from same seen l <= length l.
Proof.
  revert seen. induction l as [| x l IH]; intros seen; simpl; [lia |].
  specialize (IH (x :: seen)). destruct (existsb (same x) seen); lia.
Qed.

(** The elements met while scanning [l1] are the earlier ones for [l2]. *)
Lemma duplicated_from_app (seen l1 l2 : list A) :
  duplicated_from same seen (l1 ++ l2)%list
  = duplicated_from same seen l1
    + duplicated_from same (rev l1 ++ seen)%list l2.
Proof.
  revert seen. induction l1 as [| x l1 IH]; intros seen; simpl; [reflexivity |].
  rewrite IH, <- app_assoc. simpl. lia.
Qed.

(** Every element that has a same one among the earlier ones counts. *)
Lemma duplicated_from_all (seen l : list A) :
  (forall x, In x l -> existsb (same x) seen = true) ->
  duplicated_from same seen l = length l.
Proof.
  revert seen. induction l as [| x l IH]; intros seen H; simpl; [reflexivity |].
  rewrite (H x) by now left.
  rewrite IH; [reflexivity |].
  intros y Hy. simpl. rewrite (H y) by now right. apply orb_true_r.
Qed.

Lemma duplicated_sum_twice (l : list A) :
  duplicated_sum same (l ++ l)%list = duplicated_sum same l + length l.
Proof.
  unfold duplicated_sum. rewrite duplicated_from_app, app_nil_r.
  f_equal. apply duplicated_from_all.
  intros x Hx. apply existsb_exists. exists x.
  split; [now apply in_rev in Hx | apply same_refl].
Qed.

(** Scanning the list with each element repeated: the copy always counts,
    and the other elements count as they did. *)
Lemma duplicated_from_twice_each (l : list A) :
  forall seen seen',
    (forall y, existsb (same y) seen = existsb (same y) seen') ->
    duplicated_from same seen (twice_each l)
    = duplicated_from same seen' l + length l.
Proof.
  induction l as [| x l IH]; intros seen seen' H; [reflexivity |].
  change (twice_each (x :: l)) with (x :: x :: twice_each l).
  cbn [duplicated_from length existsb]. rewrite same_refl, (H x). simpl.
  rewrite (IH (x :: x :: seen) (x :: seen')); [lia |].
  intros y. simpl. rewrite (H y). now destruct (same y x).
Qed.

Lemma duplicated_sum_twice_each (l : list A) :
  duplicated_sum same (twice_each l) = duplicated_sum same l + length l.
Proof.
  unfold duplicated_sum. now apply duplicated_from_twice_each.
Qed.

End Duplicated.

(** ** Ranges of the scores *)

Section ReportProperties.

Context {L : Lib}.

Lemma isnull_le_len (s : Series) : isnull_sum s <= series_len s.
Proof.
  destruct s; simpl; try lia; apply count_le_length.
Qed.

Lemma sum_nat_bounded {A : Type} (f : A -> nat) (n : nat) (l : list A) :
  Forall (fun x => f x <= n) l -> sum_nat (map f l) <= length l * n.
Proof.
  induction 1 as [| x l Hx _ IH]; simpl; lia.
Qed.

(** The missing cells are cells of the table, and there is none where
    the cell count is floored. *)
Lemma missing_le_cells (df : DataFrame) :
  wf_frame df -> frame_isnull_sum df <= total_cells df.
Proof.
  intros Hwf.
  assert (B : frame_isnull_sum df <= length (columns df) * nrows df).
  { unfold frame_isnull_sum. apply sum_nat_bounded.
    unfold wf_frame in Hwf. rewrite Forall_forall in *.
    intros c Hc. rewrite <- (Hwf c Hc). apply isnull_le_len. }
  unfold total_cells.
  destruct (Nat.ltb_spec 0 (nrows df * length (columns df))); lia.
Qed.

Lemma in_0_100_max0 (x : Q) : (x <= 100)%Q -> in_0_100 (max0 x).
Proof.
  intros H. split; [apply max0_nonneg | apply max0_le; [lra | assumption]].
Qed.

(** C1. Every dimension score of a report lies between 0 and 100, both
    included: completeness, consistency, uniqueness, validity and accuracy
    always, timeliness when it is not null. *)
Theorem scores_within_0_100 (current_year : Z) (df : DataFrame) (r : Report) :
  wf_frame df ->
  assess_data_quality current_year df = Ok r ->
  in_0_100 (completeness_score r)
  /\ in_0_100 (consistency_score r)
  /\ in_0_100 (uniqueness_score r)
  /\ in_0_100 (validity_score r)
  /\ in_0_100 (accuracy_score r)
  /\ (forall t, timeliness_score r = Some t -> in_0_100 t).
Proof.
  intros Hwf H.
  pose proof (assess_labels_distinct _ _ H) as Hnd.
  apply assess_fields in H.
  destruct H as (H1 & H2 & H3 & H4 & H5 & H6 & _).
  rewrite completeness_ok in H1. injection H1 as _ _ E1.
  rewrite (consistency_ok df Hnd) in H2. injection H2 as _ _ E2.
  rewrite (uniqueness_ok df Hnd) in H3. injection H3 as _ _ E3.
  rewrite (validity_ok df Hnd) in H4. injection H4 as _ E4.
  rewrite (accuracy_ok df Hnd) in H5. injection H5 as _ E5.
  rewrite (timeliness_ok df Hnd) in H6. injection H6 as E6 _ _.
  pose proof (total_cells_pos df) as Tc.
  repeat split.
  - rewrite <- E1.
    pose proof (ratio_le_1 Tc (missing_le_cells Hwf)) as B. lra.
  - rewrite <- E1.
    pose proof (ratio_nonneg (frame_isnull_sum df) Tc) as B. lra.
  - rewrite <- E2. apply max0_nonneg.
  - rewrite <- E2. apply in_0_100_max0.
    match goal with
    | |- (100 - QofN ?a / _ * 100 - QofN ?b * 10 <= 100)%Q =>
        pose proof (ratio_nonneg a Tc); pose proof (QofN_nonneg b)
    end. lra.
  - rewrite <- E3. apply max0_nonneg.
  - rewrite <- E3. apply in_0_100_max0.
    match goal with
    | |- (100 - ?p - QofN ?a / _ * 50 <= 100)%Q =>
        pose proof (ratio_nonneg a Tc); assert (0 <= p)%Q
    end.
    { destruct (Nat.ltb_spec 0 (nrows df)) as [P | P]; [| lra].
      pose proof (ratio_nonneg (frame_duplicated_sum df) P). lra. }
    lra.
  - rewrite <- E4. apply max0_nonneg.
  - rewrite <- E4. apply in_0_100_max0.
    match goal with
    | |- (100 - QofN ?a / _ * 100 <= 100)%Q => pose proof (ratio_nonneg a Tc)
    end. lra.
  - rewrite <- E5. apply max0_nonneg.
  - rewrite <- E5. apply in_0_100_max0.
    match goal with
    | |- (100 - QofN ?a / _ * 50 <= 100)%Q => pose proof (ratio_nonneg a Tc)
    end. lra.
  - rewrite H in E6.
    destruct ((0 <? fst (timeliness_counts current_year df)) && (0 <? nrows df));
      [| discriminate].
    injection E6 as <-. apply max0_nonneg.
  - rewrite H in E6.
    destruct (Nat.ltb_spec 0 (nrows df)) as [P | P];
      [| rewrite andb_false_r in E6; discriminate].
    destruct (0 <? fst (timeliness_counts current_year df)); [| discriminate].
    injection E6 as <-. apply in_0_100_max0.
    match goal with
    | |- (100 - QofN ?a / _ * 100 * _ <= 100)%Q => pose proof (ratio_nonneg a P)
    end. lra.
Qed.

(** ** The fields of a report in terms of the table *)

Lemma report_completeness (current_year : Z) (df : DataFrame) (r : Report) :
  assess_data_quality current_year df = Ok r ->
  missing_values r = frame_isnull_sum df.
Proof.
  intros H. apply assess_fields in H. destruct H as (H & _).
  rewrite completeness_ok in H. now injection H.
Qed.

Lemma report_consistency (current_year : Z) (df : DataFrame) (r : Report) :
  assess_data_quality current_year df = Ok r ->
  consistency_issues r
  = sum_nat (map (fun c => email_issues (snd c)) (columns df)).
Proof.
  intros H. pose proof (assess_labels_distinct _ _ H) as Hnd.
  apply assess_fields in H. destruct H as (_ & H & _).
  rewrite (consistency_ok df Hnd) in H. now injection H.
Qed.

Lemma report_validity (current_year : Z) (df : DataFrame) (r : Report) :
  assess_data_quality current_year df = Ok r ->
  validity_issues r
  = sum_nat (map (fun c => validity_column (fst c) (snd c) 0) (columns df))
  /\ validity_score r
     = max0 (100 - QofN (validity_issues r) / QofN (total_cells df) * 100)%Q.
Proof.
  intros H. pose proof (assess_labels_distinct _ _ H) as Hnd.
  apply assess_fields in H. destruct H as (_ & _ & _ & H & _).
  rewrite (validity_ok df Hnd) in H. injection H as E1 E2.
  rewrite <- E2, <- E1. split; reflexivity.
Qed.

Lemma report_accuracy (current_year : Z) (df : DataFrame) (r : Report) :
  assess_data_quality current_year df = Ok r ->
  accuracy_issues r
  = sum_nat (map (fun c => accuracy_column (snd c) 0) (columns df)).
Proof.
  intros H. pose proof (assess_labels_distinct _ _ H) as Hnd.
  apply assess_fields in H. destruct H as (_ & _ & _ & _ & H & _).
  rewrite (accuracy_ok df Hnd) in H. now injection H.
Qed.

Lemma report_timeliness (current_year : Z) (df : DataFrame) (r : Report) :
  assess_data_quality current_year df = Ok r ->
  year_columns_found r = fst (timeliness_counts current_year df)
  /\ old_years_count r = snd (timeliness_counts current_year df)
  /\ timeliness_score r
     = if (0 <? year_columns_found r) && (0 <? nrows df)
       then Some (max0 (100 - QofN (old_years_count r) / QofN (nrows df) * 100
                              * (15 # 10))%Q)
       else None.
Proof.
  intros H. pose proof (assess_labels_distinct _ _ H) as Hnd.
  apply assess_fields in H. destruct H as (_ & _ & _ & _ & _ & H & _).
  rewrite (timeliness_ok df Hnd) in H. injection H as E1 E2 E3.
  rewrite <- E3, <- E2, <- E1. repeat split; reflexivity.
Qed.

Lemma report_details (current_year : Z) (df : DataFrame) (r : Report) :
  assess_data_quality current_year df = Ok r ->
  column_details r = map detail_of (columns df).
Proof.
  intros H. pose proof (assess_labels_distinct _ _ H) as Hnd.
  apply assess_fields in H. destruct H as (_ & _ & _ & _ & _ & _ & H & _).
  rewrite (details_loop_ok df Hnd) in H. now injection H.
Qed.

Lemma report_overall (current_year : Z) (df : DataFrame) (r : Report) :
  assess_data_quality current_year df = Ok r ->
  (timeliness_score r = None ->
   overall_score r
   == (completeness_score r + consistency_score r + uniqueness_score r
       + validity_score r + accuracy_score r) / 5)%Q
  /\ (forall t, timeliness_score r = Some t ->
      overall_score r
      == (completeness_score r + consistency_score r + uniqueness_score r
          + validity_score r + accuracy_score r + t) / 6)%Q.
Proof.
  intros H. apply assess_fields in H.
  destruct H as (_ & _ & _ & _ & _ & _ & _ & H & _).
  split; [intros E | intros t E]; rewrite E in H; simpl in H;
    unfold py_div in H; simpl in H; injection H as <-;
    unfold py_sum; cbn [fold_left].
  - change (QofN 5) with 5%Q. unfold Qdiv. ring.
  - change (QofN 6) with 6%Q. unfold Qdiv. ring.
Qed.

(** ** Aggregation *)

(** C2. The overall score is the arithmetic mean of the scores that are not
    null: of the five scores of completeness, consistency, uniqueness,
    validity and accuracy when the timeliness score is null, of these five
    and the timeliness score when it is not. *)
Theorem overall_score_is_mean (current_year : Z) (df : DataFrame) (r : Report) :
  assess_data_quality current_year df = Ok r ->
  match timeliness_score r with
  | None =>
      (overall_score r
       == (completeness_score r + consistency_score r + uniqueness_score r
           + validity_score r + accuracy_score r) / 5)%Q
  | Some t =>
      (overall_score r
       == (completeness_score r + consistency_score r + uniqueness_score r
           + validity_score r + accuracy_score r + t) / 6)%Q
  end.
Proof.
  intros H. destruct (report_overall _ _ H) as [N S].
  destruct (timeliness_score r) as [t |]; [now apply S | now apply N].
Qed.

(** ** Applicability of timeliness *)

(** C3. The timeliness score is null exactly when no year column was found
    or the table has no rows; it is then flagged as not applicable and the
    overall score is the mean of the five other scores.  Otherwise it is
    [max(0, 100 - 1.5 * (100 * old_years_count / total_rows))]. *)
Theorem timeliness_null_iff (current_year : Z) (df : DataFrame) (r : Report) :
  assess_data_quality current_year df = Ok r ->
  (timeliness_score r = None <-> year_columns_found r = 0 \/ total_rows r = 0)
  /\ (timeliness_score r = None ->
      timeliness_applicable r = false
      /\ (overall_score r
          == (completeness_score r + consistency_score r + uniqueness_score r
              + validity_score r + accuracy_score r) / 5)%Q)
  /\ (forall t, timeliness_score r = Some t ->
      timeliness_applicable r = true
      /\ (t == Qmax 0 (100 - (15 # 10)
                               * (100 * QofN (old_years_count r)
                                  / QofN (total_rows r))))%Q).
Proof.
  intros H.
  destruct (report_timeliness _ _ H) as (_ & _ & E).
  destruct (report_overall _ _ H) as [N _].
  apply assess_fields in H.
  destruct H as (_ & _ & _ & _ & _ & _ & _ & _ & A & R & _).
  rewrite R. split; [| split].
  - rewrite E.
    destruct (Nat.ltb_spec 0 (year_columns_found r));
      destruct (Nat.ltb_spec 0 (nrows df)); simpl;
      split; intros; try discriminate; try reflexivity; lia.
  - intros T. split; [rewrite A, T; reflexivity | now apply N].
  - intros t T. split; [rewrite A, T; reflexivity |].
    rewrite T in E.
    destruct ((0 <? year_columns_found r) && (0 <? nrows df)); [| discriminate].
    injection E as ->. rewrite max0_spec.
    apply Q.max_compat; [reflexivity |]. unfold Qdiv. ring.
Qed.

(** ** Missing cells *)

(** C10. The missing-value total of a report is the sum of the missing
    counts of its column details. *)
Theorem missing_values_sum_of_details
  (current_year : Z) (df : DataFrame) (r : Report) :
  assess_data_quality current_year df = Ok r ->
  missing_values r = sum_nat (map missing (column_details r)).
Proof.
  intros H.
  rewrite (report_completeness _ _ H), (report_details _ _ H).
  unfold frame_isnull_sum. rewrite map_map. reflexivity.
Qed.

(** ** The e-mail test *)

Lemma astype_str_text (cells : list (option string)) :
  astype_str (dropna (SObject cells)) = present cells.
Proof.
  induction cells as [| [v |] rest IH]; simpl in *; [reflexivity | | assumption].
  now rewrite IH.
Qed.

(** C5. On a text column the e-mail test runs exactly when the first
    non-missing value contains an at sign.  When it runs, the column adds to
    [consistency_issues] one for each non-missing value that does not match
    the pattern; when the first non-missing value has no at sign the column
    adds nothing, whatever its other values are. *)
Theorem email_test_keyed_on_first_value
  (current_year : Z) (df : DataFrame) (r : Report) :
  assess_data_quality current_year df = Ok r ->
  consistency_issues r
  = sum_nat (map (fun c => email_issues (snd c)) (columns df))
  /\ forall col cells, In (col, SObject cells) (columns df) ->
       (email_check_runs (SObject cells) = true
        <-> exists first rest,
              present cells = first :: rest /\ contains "@" first = true)
       /\ (email_check_runs (SObject cells) = true ->
           email_issues (SObject cells)
           = count (fun v => negb (re_match_anchored email_pattern v))
               (present cells))
       /\ (forall first rest,
             present cells = first :: rest -> contains "@" first = false ->
             email_issues (SObject cells) = 0).
Proof.
  intros H. split; [exact (report_consistency _ _ H) |].
  intros col cells _.
  unfold email_issues, email_check_runs, invalid_email_count.
  rewrite astype_str_text.
  repeat split.
  - destruct (present cells) as [| first rest]; [discriminate | eauto].
  - intros (first & rest & -> & E). exact E.
  - intros E. now rewrite E.
  - intros first rest -> E. now rewrite E.
Qed.

(** ** Negative values *)

(** C8. A numeric column whose lowered name contains age, count or
    quantity adds one to [validity_issues] for each negative non-missing
    value, next to one for each infinite value; and on the two-row table of
    ages and names the analyser counts one issue and gives the score 75. *)
Theorem negative_values_are_validity_issues :
  (forall current_year df r,
      assess_data_quality current_year df = Ok r ->
      validity_issues r
      = sum_nat (map (fun c => validity_column (fst c) (snd c) 0) (columns df))
      /\ forall col s, In (col, s) (columns df) ->
           is_numeric s = true -> non_negative_name col = true ->
           validity_column col s 0
           = count is_inf (numeric_values (dropna s))
             + count (fun v => flt v (of_int 0)) (numeric_values (dropna s)))
  /\ (forall current_year r,
        assess_data_quality current_year scenario_a = Ok r ->
        validity_issues r = 1 /\ (validity_score r == 75)%Q).
Proof.
  split.
  - intros current_year df r H. split; [exact (proj1 (report_validity _ _ H)) |].
    intros col s _ Hn Hc. unfold validity_column. rewrite Hn, Hc.
    destruct s as [l | l | l]; try discriminate; simpl.
    + destruct l; reflexivity.
    + destruct (filter _ l); reflexivity.
  - intros current_year r H.
    destruct (report_validity _ _ H) as [E1 E2].
    assert (V : validity_issues r = 1) by (rewrite E1; reflexivity).
    split; [exact V |]. rewrite E2, V. reflexivity.
Qed.

(** ** Outliers *)

(** C9. A column adds to [accuracy_issues] only when it is numeric, has
    more than 10 non-missing values and a positive interquartile range; it
    then adds the number of non-missing values below [Q1 - 3 * IQR] or above
    [Q3 + 3 * IQR], and otherwise nothing. *)
Theorem outliers_need_a_positive_iqr
  (current_year : Z) (df : DataFrame) (r : Report) :
  assess_data_quality current_year df = Ok r ->
  accuracy_issues r
  = sum_nat (map (fun c => accuracy_column (snd c) 0) (columns df))
  /\ forall col s, In (col, s) (columns df) ->
       let values := numeric_values (dropna s) in
       let Q1 := quantile values (25 # 100) in
       let Q3 := quantile values (75 # 100) in
       let IQR := fsub Q3 Q1 in
       (is_numeric s = true -> 10 < length values ->
        fgt IQR (of_int 0) = true ->
        accuracy_column s 0
        = count (fun v => flt v (fsub Q1 (fscale 3 IQR))
                          || fgt v (fadd Q3 (fscale 3 IQR))) values)
       /\ (is_numeric s = false \/ length values <= 10
           \/ fgt IQR (of_int 0) = false ->
           accuracy_column s 0 = 0).
Proof.
  intros H. split; [exact (report_accuracy _ _ H) |].
  intros col s _ values Q1 Q3 IQR. unfold accuracy_column.
  fold values. fold Q1. fold Q3. fold IQR. split.
  - intros Hn Hl Hi. rewrite Hn.
    destruct (Nat.ltb_spec 10 (length values)) as [P | P]; [| lia].
    rewrite Hi. reflexivity.
  - intros [Hn | [Hl | Hi]].
    + now rewrite Hn.
    + destruct (is_numeric s); [| reflexivity].
      destruct (Nat.ltb_spec 10 (length values)) as [P | P]; [lia | reflexivity].
    + destruct (is_numeric s); [| reflexivity].
      destruct (10 <? length values); [| reflexivity].
      now rewrite Hi.
Qed.

(** ** The clock *)

(** Whether a column is found to hold years does not depend on the year
    of the clock; only the count of old years does. *)
Lemma detect_by_values_found (y1 y2 : Z) (s : Series) (st1 st2 : nat * nat) :
  fst st1 = fst st2 ->
  fst (detect_by_values y1 s st1) = fst (detect_by_values y2 s st2)
  /\ fst (snd (detect_by_values y1 s st1)) = fst (snd (detect_by_values y2 s st2)).
Proof.
  intros E. unfold detect_by_values.
  destruct (is_numeric s).
  - destruct (0 <? length (numeric_values (dropna s))); [| now split].
    destruct (Qgtb _ _); simpl; split; congruence.
  - destruct (is_object s); [| now split].
    destruct (0 <? length (astype_str (dropna s))); [| now split].
    destruct (to_datetime (astype_str (dropna s))) as [parsed |].
    + destruct (Qgtb (QofN (length (parsed_years parsed))) _); simpl.
      * split; congruence.
      * destruct (Qgtb _ _); simpl; split; congruence.
    + simpl. destruct (Qgtb _ _); simpl; split; congruence.
Qed.

Lemma timeliness_column_found (y1 y2 : Z) (col : string) (s : Series)
  (st1 st2 : nat * nat) :
  fst st1 = fst st2 ->
  fst (timeliness_column y1 col s st1) = fst (timeliness_column y2 col s st2).
Proof.
  intros E. unfold timeliness_column, detect_by_name.
  destruct (detect_by_values_found y1 y2 s st1 st2 E) as [F G].
  rewrite F.
  destruct (is_year_column col && negb (fst (detect_by_values y2 s st2)));
    [| exact G].
  destruct (0 <? series_len (dropna s)); [| exact G].
  destruct (is_numeric s); [| exact G].
  destruct (Qgtb _ _); simpl; congruence.
Qed.

Lemma year_columns_found_same (y1 y2 : Z) (df : DataFrame) :
  fst (timeliness_counts y1 df) = fst (timeliness_counts y2 df).
Proof.
  unfold timeliness_counts.
  assert (G : forall l st1 st2, fst st1 = fst st2 ->
             fst (fold_left (fun st c => timeliness_column y1 (fst c) (snd c) st)
                    l st1)
             = fst (fold_left (fun st c => timeliness_column y2 (fst c) (snd c) st)
                      l st2)).
  { induction l as [| c l IH]; intros st1 st2 E; simpl; [exact E |].
    apply IH. now apply timeliness_column_found. }
  now apply G.
Qed.

(** C4, as the code has it.  The report is a function of the table and of
    the calendar year that the timeliness analyser reads from the clock: two
    runs on the same table in the same year return the same report, and two
    runs in different years agree on every field except [timeliness_score],
    [old_years_count] and [overall_score]. *)
Theorem report_function_of_table_and_year
  (year1 year2 : Z) (df : DataFrame) (r1 r2 : Report) :
  assess_data_quality year1 df = Ok r1 ->
  assess_data_quality year2 df = Ok r2 ->
  (year1 = year2 -> r1 = r2)
  /\ total_rows r1 = total_rows r2
  /\ total_columns r1 = total_columns r2
  /\ completeness_score r1 = completeness_score r2
  /\ missing_values r1 = missing_values r2
  /\ missing_percentage r1 = missing_percentage r2
  /\ consistency_score r1 = consistency_score r2
  /\ consistency_issues r1 = consistency_issues r2
  /\ type_inconsistencies r1 = type_inconsistencies r2
  /\ uniqueness_score r1 = uniqueness_score r2
  /\ duplicate_rows r1 = duplicate_rows r2
  /\ duplicate_percentage r1 = duplicate_percentage r2
  /\ validity_score r1 = validity_score r2
  /\ validity_issues r1 = validity_issues r2
  /\ accuracy_score r1 = accuracy_score r2
  /\ accuracy_issues r1 = accuracy_issues r2
  /\ year_columns_found r1 = year_columns_found r2
  /\ timeliness_applicable r1 = timeliness_applicable r2
  /\ column_details r1 = column_details r2.
Proof.
  intros H1 H2.
  split; [intros <-; congruence |].
  destruct (report_timeliness _ _ H1) as (Y1 & _ & T1).
  destruct (report_timeliness _ _ H2) as (Y2 & _ & T2).
  assert (Y : year_columns_found r1 = year_columns_found r2).
  { rewrite Y1, Y2. apply year_columns_found_same. }
  apply assess_fields in H1. apply assess_fields in H2.
  destruct H1 as (A1 & B1 & C1 & D1 & E1 & _ & G1 & _ & I1 & J1 & K1).
  destruct H2 as (A2 & B2 & C2 & D2 & E2 & _ & G2 & _ & I2 & J2 & K2).
  rewrite A1 in A2. rewrite B1 in B2. rewrite C1 in C2. rewrite D1 in D2.
  rewrite E1 in E2. rewrite G1 in G2.
  injection A2 as ? ? ?. injection B2 as ? ? ?. injection C2 as ? ? ?.
  injection D2 as ? ?. injection E2 as ? ?. injection G2 as ?.
  assert (I : timeliness_applicable r1 = timeliness_applicable r2).
  { rewrite I1, I2, T1, T2, Y.
    now destruct ((0 <? year_columns_found r2) && (0 <? nrows df)). }
  repeat split; congruence.
Qed.

(** ** Totality *)

Lemma all_missing_no_text (s : Series) :
  all_missing s -> astype_str (dropna s) = [].
Proof.
  unfold all_missing. destruct s as [l | l | l]; simpl; intros H;
    apply length_zero_iff_nil in H; now rewrite H.
Qed.

Lemma all_missing_no_number (s : Series) :
  all_missing s -> numeric_values (dropna s) = [].
Proof.
  unfold all_missing. destruct s as [l | l | l]; simpl; intros H;
    try reflexivity; apply length_zero_iff_nil in H; now rewrite H.
Qed.

(** The missing cells of a text column are duplicates of one another. *)
Lemma all_missing_text_duplicates (cells : list (option string)) :
  all_missing (SObject cells) ->
  column_duplicates (SObject cells) = length cells - 1.
Proof.
  unfold all_missing, column_duplicates, duplicated_sum. simpl.
  intros H. apply length_zero_iff_nil in H.
  assert (N : forall o, In o cells -> o = None).
  { intros o Ho. destruct o as [v |]; [| reflexivity].
    assert (In (Some v) (filter (fun o => negb (is_none o)) cells))
      by (apply filter_In; split; [assumption | reflexivity]).
    rewrite H in *. contradiction. }
  destruct cells as [| o cells]; [reflexivity |].
  simpl. rewrite Nat.sub_0_r, <- (length_map CText cells).
  apply duplicated_from_all.
  intros x Hx. apply in_map_iff in Hx. destruct Hx as (o' & <- & Ho').
  rewrite (N o) by now left. rewrite (N o') by now right. reflexivity.
Qed.

(** C7, as the code has it.  On every table whose column labels are
    distinct the engine returns a report; the cell count that divides is 1
    when the table has no rows or no columns; and a column whose values are
    all missing adds nothing to the issue counters of the consistency,
    validity, accuracy and timeliness analysers.  To the duplicate values of
    the uniqueness analyser it adds nothing when it is numeric, and one
    less than its length when it is a text column. *)
Theorem assess_total_on_distinct_labels (current_year : Z) (df : DataFrame) :
  NoDup (labels df) ->
  (exists r, assess_data_quality current_year df = Ok r)
  /\ (nrows df = 0 \/ columns df = [] -> total_cells df = 1)
  /\ forall col s, In (col, s) (columns df) -> all_missing s ->
       email_issues s = 0
       /\ mixed_types_step s 0 = 0
       /\ validity_column col s 0 = 0
       /\ accuracy_column s 0 = 0
       /\ (forall st, timeliness_column current_year col s st = st)
       /\ column_duplicates s
          = if is_object s then series_len s - 1 else 0.
Proof.
  intros Hnd. split; [now apply assess_returns | split].
  - unfold total_cells. intros [E | E]; rewrite E; simpl;
      [reflexivity | now rewrite Nat.mul_0_r].
  - intros col s _ Hm.
    pose proof (all_missing_no_text Hm) as Ht.
    pose proof (all_missing_no_number Hm) as Hv.
    repeat split.
    + unfold email_issues, email_check_runs. now rewrite Ht.
    + unfold mixed_types_step. rewrite Ht. now destruct (is_object s).
    + unfold validity_column. unfold all_missing in Hm. now rewrite Hm.
    + unfold accuracy_column. rewrite Hv. now destruct (is_numeric s).
    + intros st. unfold timeliness_column, detect_by_name, detect_by_values.
      unfold all_missing in Hm. rewrite Ht, Hv, Hm. simpl.
      destruct (is_numeric s); simpl.
      * now rewrite andb_true_r; destruct (is_year_column col).
      * destruct (is_object s); simpl;
          now rewrite andb_true_r; destruct (is_year_column col).
    + destruct s as [l | l | l]; try reflexivity.
      now apply all_missing_text_duplicates.
Qed.

End ReportProperties.

(** ** Runs of the engine on the scenario tables *)

(** C4: the same table assessed in 2020 and in 2025 gets two different
    timeliness scores. *)
Lemma same_table_two_years :
  exists r1 r2 t1 t2,
    assess_data_quality (L := RefLib.ref_lib) 2020 scenario_c = Ok r1
    /\ assess_data_quality (L := RefLib.ref_lib) 2025 scenario_c = Ok r2
    /\ timeliness_score r1 = Some t1
    /\ timeliness_score r2 = Some t2
    /\ ~ (t1 == t2)%Q.
Proof.
  do 4 eexists.
  split; [vm_compute; reflexivity |].
  split; [vm_compute; reflexivity |].
  split; [reflexivity |].
  split; [reflexivity |].
  unfold Qeq. simpl. lia.
Qed.

(** C7: a well-formed table with a repeated label makes the engine raise;
    and a text column whose cells are all missing counts as two duplicate
    values in a table of three rows, which lowers the uniqueness score. *)
Lemma repeated_label_and_null_column :
  (wf_frame repeated_label
   /\ assess_data_quality (L := RefLib.ref_lib) 2025 repeated_label
      = Raise AttributeError)
  /\ (wf_frame null_notes
      /\ all_missing (SObject [None; None; None])
      /\ column_duplicates (SObject [None; None; None]) = 2
      /\ exists r,
           assess_data_quality (L := RefLib.ref_lib) 2025 null_notes = Ok r
           /\ duplicate_rows r = 0
           /\ (uniqueness_score r == 250 # 3)%Q).
Proof.
  split; [split; [repeat constructor | reflexivity] |].
  split; [repeat constructor |].
  split; [reflexivity |].
  split; [reflexivity |].
  eexists. split; [vm_compute; reflexivity |].
  split; reflexivity.
Qed.

(** The other scenarios of the test plan, with the year 2025 on the clock. *)
Example scenario_b_one_invalid_email :
  exists r,
    assess_data_quality (L := RefLib.ref_lib) 2025 scenario_b = Ok r
    /\ consistency_issues r = 1.
Proof.
  eexists. split; [vm_compute; reflexivity | reflexivity].
Qed.

Example scenario_c_two_old_years :
  exists r,
    assess_data_quality (L := RefLib.ref_lib) 2025 scenario_c = Ok r
    /\ year_columns_found r = 1
    /\ old_years_count r = 2
    /\ exists t, timeliness_score r = Some t /\ (t == 25)%Q.
Proof.
  eexists. split; [vm_compute; reflexivity |].
  split; [reflexivity |]. split; [reflexivity |].
  eexists. split; reflexivity.
Qed.

Example scenario_d_identical_rows :
  exists r,
    assess_data_quality (L := RefLib.ref_lib) 2025 scenario_d = Ok r
    /\ duplicate_rows r = 2
    /\ (duplicate_percentage r == 200 # 3)%Q.
Proof.
  eexists. split; [vm_compute; reflexivity |].
  split; reflexivity.
Qed.

(** The pattern is matched from the start of the value to its end, or to
    the newline that ends it. *)
Example email_pattern_runs :
  map (re_match_anchored email_pattern)
    ["a@b.com"; "not-an-email"; "c@d.org"; "a@b.c"; "a b@c.de"; "@b.com";
     "first.last+tag@sub.domain.org"; String newline "a@b.com";
     "a@b.com" ++ String newline ""]
  = [true; false; true; false; false; false; true; false; true].
Proof.
  reflexivity.
Qed.

(** ** Doubled tables *)

Lemma series_cells_len (s : Series) : length (series_cells s) = series_len s.
Proof.
  destruct s; simpl; apply length_map.
Qed.

Lemma series_cells_twice (s : Series) :
  series_cells (series_twice s) = (series_cells s ++ series_cells s)%list.
Proof.
  destruct s; simpl; apply map_app.
Qed.

Lemma series_duplicated_twice (s : Series) :
  series_duplicated_sum (series_twice s)
  = series_duplicated_sum s + series_len s.
Proof.
  unfold series_duplicated_sum.
  rewrite series_cells_twice, duplicated_sum_twice by apply cell_same_refl.
  now rewrite series_cells_len.
Qed.

Lemma series_duplicated_le (s : Series) :
  series_duplicated_sum s <= series_len s.
Proof.
  unfold series_duplicated_sum, duplicated_sum.
  rewrite <- series_cells_len. apply duplicated_from_le.
Qed.

Lemma seq_from (n len : nat) : seq n len = map (Nat.add n) (seq 0 len).
Proof.
  revert n. induction len as [| len IH]; intros n; simpl; [reflexivity |].
  f_equal; [lia |].
  rewrite (IH (S n)), (IH 1), map_map. apply map_ext. intros; lia.
Qed.

(** The rows of the doubled table are the rows of the table, twice. *)
Lemma rows_twice (df : DataFrame) :
  wf_frame df -> rows (duplicate_every_row df) = (rows df ++ rows df)%list.
Proof.
  intros Hwf. unfold rows. cbn [nrows duplicate_every_row doubled_with].
  rewrite seq_app, map_app. cbn [Nat.add].
  unfold wf_frame in Hwf. rewrite Forall_forall in Hwf.
  f_equal.
  - apply map_ext_in. intros i Hi. apply in_seq in Hi.
    unfold row. cbn [columns duplicate_every_row doubled_with].
    rewrite map_map. apply map_ext_in. intros c Hc. cbn [snd].
    rewrite series_cells_twice. apply nth_error_app1.
    rewrite series_cells_len, (Hwf c Hc). lia.
  - rewrite (seq_from (nrows df)), map_map.
    apply map_ext_in. intros i Hi. apply in_seq in Hi.
    unfold row. cbn [columns duplicate_every_row doubled_with].
    rewrite map_map. apply map_ext_in. intros c Hc. cbn [snd].
    rewrite series_cells_twice, nth_error_app2
      by (rewrite series_cells_len, (Hwf c Hc); lia).
    rewrite series_cells_len, (Hwf c Hc). f_equal. lia.
Qed.

Lemma labels_twice (df : DataFrame) :
  labels (duplicate_every_row df) = labels df.
Proof.
  unfold labels. cbn [columns duplicate_every_row doubled_with].
  rewrite map_map. reflexivity.
Qed.

Lemma rows_length (df : DataFrame) : length (rows df) = nrows df.
Proof.
  unfold rows. now rewrite length_map, length_seq.
Qed.

Lemma frame_duplicated_le (df : DataFrame) :
  frame_duplicated_sum df <= nrows df.
Proof.
  unfold frame_duplicated_sum. destruct (frame_empty df); [lia |].
  rewrite <- rows_length. apply duplicated_from_le.
Qed.

Lemma ratio_mono (a b a' b' : nat) :
  0 < b -> 0 < b' -> a * b' <= a' * b ->
  (QofN a / QofN b <= QofN a' / QofN b')%Q.
Proof.
  intros Hb Hb' H.
  apply Qle_shift_div_r; [now apply QofN_pos |].
  unfold Qdiv. rewrite <- Qmult_assoc, (Qmult_comm (/ QofN b')), Qmult_assoc.
  apply Qle_shift_div_l; [now apply QofN_pos |].
  rewrite <- !QofN_mult. now apply QofN_le.
Qed.

Lemma twice_each_map {A B : Type} (f : A -> B) (l : list A) :
  twice_each (map f l) = map f (twice_each l).
Proof.
  induction l as [| x l IH]; simpl; [reflexivity |].
  unfold twice_each in *. simpl. now rewrite IH.
Qed.

Lemma series_cells_repeat (s : Series) :
  series_cells (series_repeat s) = twice_each (series_cells s).
Proof.
  destruct s; simpl; now rewrite twice_each_map.
Qed.

Lemma series_duplicated_repeat (s : Series) :
  series_duplicated_sum (series_repeat s)
  = series_duplicated_sum s + series_len s.
Proof.
  unfold series_duplicated_sum.
  rewrite series_cells_repeat, duplicated_sum_twice_each
    by apply cell_same_refl.
  now rewrite series_cells_len.
Qed.

Lemma nth_error_twice_each {A : Type} (l : list A) (i : nat) :
  nth_error (twice_each l) (2 * i) = nth_error l i
  /\ nth_error (twice_each l) (2 * i + 1) = nth_error l i.
Proof.
  revert i. induction l as [| x l IH]; intros i.
  - split; [destruct (2 * i) | destruct (2 * i + 1)]; now destruct i.
  - change (twice_each (x :: l)) with (x :: x :: twice_each l).
    destruct i as [| i]; [split; reflexivity |].
    replace (2 * S i) with (S (S (2 * i))) by lia.
    replace (S (S (2 * i)) + 1) with (S (S (2 * i + 1))) by lia.
    simpl nth_error. apply IH.
Qed.

Lemma seq_pairs (n k : nat) :
  seq (2 * k) (n + n) = flat_map (fun i => [2 * i; 2 * i + 1]) (seq k n).
Proof.
  revert k. induction n as [| n IH]; intros k; [reflexivity |].
  replace (S n + S n) with (S (S (n + n))) by lia.
  cbn [seq flat_map app].
  replace (S (S (2 * k))) with (2 * S k) by lia.
  rewrite IH. f_equal. f_equal. lia.
Qed.

(** The rows of the table with repeated rows are the rows of the table,
    each one twice. *)
Lemma rows_repeat (df : DataFrame) :
  rows (repeat_every_row df) = twice_each (rows df).
Proof.
  unfold rows. cbn [nrows repeat_every_row doubled_with].
  change (seq 0 (nrows df + nrows df))
    with (seq (2 * 0) (nrows df + nrows df)).
  rewrite (seq_pairs (nrows df) 0).
  assert (E : forall i k, k = 2 * i \/ k = 2 * i + 1 ->
                          row (repeat_every_row df) k = row df i).
  { intros i k Hk. unfold row. cbn [columns repeat_every_row doubled_with].
    rewrite map_map. apply map_ext. intros c. cbn [snd].
    rewrite series_cells_repeat.
    destruct Hk as [-> | ->]; apply nth_error_twice_each. }
  induction (seq 0 (nrows df)) as [| i l IH]; [reflexivity |].
  change (twice_each (map (row df) (i :: l)))
    with (row df i :: row df i :: twice_each (map (row df) l)).
  cbn [flat_map app map]. rewrite IH, !(E i) by auto. reflexivity.
Qed.

(** Duplicate values of the text columns when every column is doubled by
    [double]. *)
Lemma column_duplicates_doubled (double : Series -> Series)
  (cols : list (string * Series)) :
  (forall s, is_object (double s) = is_object s) ->
  (forall s, series_duplicated_sum (double s)
             = series_duplicated_sum s + series_len s) ->
  sum_nat (map (fun c => if is_object (snd c)
                         then series_duplicated_sum (snd c) else 0)
             (map (fun c => (fst c, double (snd c))) cols))
  = sum_nat (map (fun c => if is_object (snd c)
                           then series_duplicated_sum (snd c) else 0) cols)
    + sum_nat (map (fun c => if is_object (snd c)
                             then series_len (snd c) else 0) cols).
Proof.
  intros Ho Hd. induction cols as [| c cols IH]; simpl; [reflexivity |].
  rewrite IH, Ho, Hd. destruct (is_object (snd c)); lia.
Qed.

Lemma column_duplicates_le (cols : list (string * Series)) :
  sum_nat (map (fun c => if is_object (snd c)
                         then series_duplicated_sum (snd c) else 0) cols)
  <= sum_nat (map (fun c => if is_object (snd c)
                            then series_len (snd c) else 0) cols).
Proof.
  induction cols as [| c cols IH]; simpl; [lia |].
  pose proof (series_duplicated_le (snd c)).
  destruct (is_object (snd c)); lia.
Qed.

(** Row duplicates of a doubled table whose rows are [rows2]. *)
Lemma frame_duplicated_doubled (df df2 : DataFrame) :
  nrows df2 = nrows df + nrows df ->
  length (columns df2) = length (columns df) ->
  duplicated_sum row_same (rows df2)
  = duplicated_sum row_same (rows df) + nrows df ->
  0 < nrows df ->
  frame_duplicated_sum df2
  = if length (columns df) =? 0 then 0
    else frame_duplicated_sum df + nrows df.
Proof.
  intros Hr Hc Hd Hn. unfold frame_duplicated_sum, frame_empty.
  rewrite Hr, Hc, Hd.
  destruct (Nat.eqb_spec (nrows df + nrows df) 0) as [E | _]; [lia |].
  destruct (Nat.eqb_spec (nrows df) 0) as [E | _]; [lia |].
  simpl. now destruct (length (columns df) =? 0).
Qed.

Section Doubled.

Context {L : Lib}.

Variable double : Series -> Series.
Hypothesis double_dtype : forall s, is_object (double s) = is_object s.
Hypothesis double_duplicates :
  forall s, series_duplicated_sum (double s)
            = series_duplicated_sum s + series_len s.

Variable df : DataFrame.

Hypothesis double_rows :
  duplicated_sum row_same (rows (doubled_with double df))
  = duplicated_sum row_same (rows df) + nrows df.

(** The uniqueness score of a doubled table. *)
Lemma doubled_uniqueness (current_year : Z) (r : Report) :
  0 < nrows df ->
  assess_data_quality current_year df = Ok r ->
  exists r2,
    assess_data_quality current_year (doubled_with double df) = Ok r2
    /\ (uniqueness_score r2 <= uniqueness_score r)%Q.
Proof.
  intros Hn H. set (df2 := doubled_with double df) in *.
  pose proof (assess_labels_distinct _ _ H) as Hnd.
  assert (Hnd2 : NoDup (labels df2)).
  { unfold labels, df2, doubled_with. cbn [columns]. now rewrite map_map. }
  destruct (assess_returns df2 Hnd2 current_year) as [r2 H2].
  exists r2. split; [exact H2 |].
  apply assess_fields in H. destruct H as (_ & _ & U & _).
  apply assess_fields in H2. destruct H2 as (_ & _ & U2 & _).
  rewrite (uniqueness_ok df Hnd) in U. injection U as _ _ <-.
  rewrite (uniqueness_ok _ Hnd2) in U2. injection U2 as _ _ <-.
  assert (Hw : length (columns df2) = length (columns df))
    by (unfold df2, doubled_with; cbn [columns]; apply length_map).
  rewrite (frame_duplicated_doubled df df2 eq_refl Hw double_rows Hn).
  rewrite (column_duplicates_doubled double (columns df)
             double_dtype double_duplicates).
  pose proof (column_duplicates_le (columns df)) as HC.
  pose proof (frame_duplicated_le df) as HD.
  set (C := sum_nat (map (fun c => if is_object (snd c)
                                   then series_duplicated_sum (snd c) else 0)
                       (columns df))) in *.
  set (X := sum_nat (map (fun c => if is_object (snd c)
                                   then series_len (snd c) else 0)
                       (columns df))) in *.
  destruct (Nat.ltb_spec 0 (nrows df)) as [_ | P]; [| lia].
  destruct (Nat.ltb_spec 0 (nrows df + nrows df)) as [_ | P]; [| lia].
  assert (R1 : (QofN (frame_duplicated_sum df) / QofN (nrows df)
                <= QofN (if length (columns df) =? 0 then 0
                         else frame_duplicated_sum df + nrows df)
                   / QofN (nrows df + nrows df))%Q).
  { apply ratio_mono; try lia.
    destruct (Nat.eqb_spec (length (columns df)) 0) as [E | E]; [| nia].
    unfold frame_duplicated_sum, frame_empty. rewrite E.
    rewrite orb_true_r. lia. }
  assert (R2 : (QofN C / QofN (total_cells df)
                <= QofN (C + X) / QofN (total_cells df2))%Q).
  { apply ratio_mono; try apply total_cells_pos.
    unfold total_cells. rewrite Hw. unfold df2, doubled_with. cbn [nrows].
    destruct (Nat.ltb_spec 0 (nrows df * length (columns df)));
      destruct (Nat.ltb_spec 0 ((nrows df + nrows df) * length (columns df)));
      nia. }
  apply max0_mono.
  revert R1 R2.
  generalize (QofN (frame_duplicated_sum df) / QofN (nrows df))%Q.
  generalize (QofN (if length (columns df) =? 0 then 0
                    else frame_duplicated_sum df + nrows df)
              / QofN (nrows df + nrows df))%Q.
  generalize (QofN C / QofN (total_cells df))%Q.
  generalize (QofN (C + X) / QofN (total_cells df2))%Q.
  intros a b c d R1 R2. lra.
Qed.

End Doubled.

(** C6. For a table with at least one row, the table in which every row
    occurs a second time gets a uniqueness score that is at most that of the
    table, whether the copies come after all the rows or each next to its
    row. *)
Theorem duplicating_rows_never_raises_uniqueness
  {L : Lib} (current_year : Z) (df : DataFrame) (r : Report) :
  wf_frame df ->
  0 < nrows df ->
  assess_data_quality current_year df = Ok r ->
  (exists r2,
      assess_data_quality current_year (duplicate_every_row df) = Ok r2
      /\ (uniqueness_score r2 <= uniqueness_score r)%Q)
  /\ (exists r2,
        assess_data_quality current_year (repeat_every_row df) = Ok r2
        /\ (uniqueness_score r2 <= uniqueness_score r)%Q).
Proof.
  intros Hwf Hn H. split.
  - apply (doubled_uniqueness series_twice); try assumption.
    + now destruct s.
    + apply series_duplicated_twice.
    + change (duplicated_sum row_same (rows (duplicate_every_row df))
              = duplicated_sum row_same (rows df) + nrows df).
      rewrite (rows_twice Hwf), duplicated_sum_twice by apply row_same_refl.
      now rewrite rows_length.
  - apply (doubled_uniqueness series_repeat); try assumption.
    + now destruct s.
    + apply series_duplicated_repeat.
    + change (duplicated_sum row_same (rows (repeat_every_row df))
              = duplicated_sum row_same (rows df) + nrows df).
      rewrite rows_repeat, duplicated_sum_twice_each by apply row_same_refl.
      now rewrite rows_length.
Qed.

(** ** The theorems at work on the scenario tables *)

Ltac run := vm_compute; reflexivity.

Ltac distinct_labels :=
  vm_compute; repeat constructor; simpl; intuition discriminate.

Ltac well_formed := repeat constructor.

Lemma scores_within_0_100_witness :
  exists r,
    assess_data_quality (L := RefLib.ref_lib) 2025 scenario_c = Ok r
    /\ in_0_100 (completeness_score r)
    /\ in_0_100 (consistency_score r)
    /\ in_0_100 (uniqueness_score r)
    /\ in_0_100 (validity_score r)
    /\ in_0_100 (accuracy_score r)
    /\ (forall t, timeliness_score r = Some t -> in_0_100 t).
Proof.
  eexists. split; [run |].
  apply (@scores_within_0_100 RefLib.ref_lib 2025 scenario_c);
    [well_formed | run].
Defined.

Lemma overall_score_is_mean_witness :
  exists r,
    assess_data_quality (L := RefLib.ref_lib) 2025 scenario_c = Ok r
    /\ match timeliness_score r with
       | None =>
           (overall_score r
            == (completeness_score r + consistency_score r + uniqueness_score r
                + validity_score r + accuracy_score r) / 5)%Q
       | Some t =>
           (overall_score r
            == (completeness_score r + consistency_score r + uniqueness_score r
                + validity_score r + accuracy_score r + t) / 6)%Q
       end.
Proof.
  eexists. split; [run |].
  apply (@overall_score_is_mean RefLib.ref_lib 2025 scenario_c).
  run.
Defined.

Lemma timeliness_null_iff_witness :
  exists r,
    assess_data_quality (L := RefLib.ref_lib) 2025 scenario_a = Ok r
    /\ (timeliness_score r = None
        <-> year_columns_found r = 0 \/ total_rows r = 0).
Proof.
  eexists. split; [run |].
  apply (@timeliness_null_iff RefLib.ref_lib 2025 scenario_a).
  run.
Defined.

Lemma report_function_of_table_and_year_witness :
  exists r1 r2,
    assess_data_quality (L := RefLib.ref_lib) 2020 scenario_c = Ok r1
    /\ assess_data_quality (L := RefLib.ref_lib) 2025 scenario_c = Ok r2
    /\ year_columns_found r1 = year_columns_found r2
    /\ timeliness_applicable r1 = timeliness_applicable r2
    /\ column_details r1 = column_details r2.
Proof.
  do 2 eexists. split; [run |]. split; [run |].
  apply (@report_function_of_table_and_year RefLib.ref_lib
           2020 2025 scenario_c); run.
Defined.

Lemma email_test_keyed_on_first_value_witness :
  exists r,
    assess_data_quality (L := RefLib.ref_lib) 2025 scenario_b = Ok r
    /\ consistency_issues r
       = sum_nat (map (fun c => email_issues (L := RefLib.ref_lib) (snd c))
                    (columns scenario_b)).
Proof.
  eexists. split; [run |].
  apply (@email_test_keyed_on_first_value RefLib.ref_lib 2025 scenario_b).
  run.
Defined.

Lemma duplicating_rows_never_raises_uniqueness_witness :
  exists r,
    assess_data_quality (L := RefLib.ref_lib) 2025 scenario_a = Ok r
    /\ (exists r2,
          assess_data_quality (L := RefLib.ref_lib) 2025
            (duplicate_every_row scenario_a) = Ok r2
          /\ (uniqueness_score r2 <= uniqueness_score r)%Q)
    /\ (exists r2,
          assess_data_quality (L := RefLib.ref_lib) 2025
            (repeat_every_row scenario_a) = Ok r2
          /\ (uniqueness_score r2 <= uniqueness_score r)%Q).
Proof.
  eexists. split; [run |].
  apply (@duplicating_rows_never_raises_uniqueness
           RefLib.ref_lib 2025 scenario_a).
  - well_formed.
  - simpl. lia.
  - run.
Defined.

Lemma assess_total_on_distinct_labels_witness :
  NoDup (labels gaps)
  /\ exists r, assess_data_quality (L := RefLib.ref_lib) 2025 gaps = Ok r.
Proof.
  split; [distinct_labels |].
  apply (@assess_total_on_distinct_labels RefLib.ref_lib 2025 gaps).
  distinct_labels.
Defined.

Lemma negative_values_are_validity_issues_witness :
  exists r,
    assess_data_quality (L := RefLib.ref_lib) 2025 scenario_a = Ok r
    /\ validity_issues r = 1
    /\ (validity_score r == 75)%Q.
Proof.
  eexists. split; [run |].
  apply (proj2 (@negative_values_are_validity_issues RefLib.ref_lib) 2025%Z).
  run.
Defined.

Lemma outliers_need_a_positive_iqr_witness :
  exists r,
    assess_data_quality (L := RefLib.ref_lib) 2025 readings = Ok r
    /\ accuracy_issues r = 1
    /\ accuracy_issues r
       = sum_nat (map (fun c => accuracy_column (L := RefLib.ref_lib) (snd c) 0)
                    (columns readings)).
Proof.
  eexists. split; [run |]. split; [reflexivity |].
  apply (@outliers_need_a_positive_iqr RefLib.ref_lib 2025 readings).
  run.
Defined.

Lemma missing_values_sum_of_details_witness :
  exists r,
    assess_data_quality (L := RefLib.ref_lib) 2025 gaps = Ok r
    /\ missing_values r = 3
    /\ missing_values r = sum_nat (map missing (column_details r)).
Proof.
  eexists. split; [run |]. split; [reflexivity |].
  apply (@missing_values_sum_of_details RefLib.ref_lib 2025 gaps).
  run.
Defined.

(** * Further properties of the engine *)

Section EngineFacts.

Context {L : Lib}.

(** The scores of a report as formulas of its counters. *)
Lemma report_scores (current_year : Z) (df : DataFrame) (r : Report) :
  assess_data_quality current_year df = Ok r ->
  completeness_score r
  = (100 - QofN (missing_values r) / QofN (total_cells df) * 100)%Q
  /\ missing_percentage r
     = (QofN (missing_values r) / QofN (total_cells df) * 100)%Q
  /\ consistency_score r
     = max0 (100 - QofN (consistency_issues r) / QofN (total_cells df) * 100
             - QofN (type_inconsistencies r) * 10)%Q
  /\ type_inconsistencies r
     = sum_nat (map (fun c => mixed_types_step (snd c) 0) (columns df))
  /\ duplicate_rows r = frame_duplicated_sum df
  /\ duplicate_percentage r
     = (if 0 <? nrows df
        then (QofN (duplicate_rows r) / QofN (nrows df) * 100)%Q else 0%Q)
  /\ uniqueness_score r
     = max0 (100 - duplicate_percentage r
             - QofN (sum_nat (map (fun c => column_duplicates (snd c))
                                (columns df)))
               / QofN (total_cells df) * 50)%Q
  /\ accuracy_score r
     = max0 (100 - QofN (accuracy_issues r) / QofN (total_cells df) * 50)%Q.
Proof.
  intros H. pose proof (assess_labels_distinct _ _ H) as Hnd.
  apply assess_fields in H.
  destruct H as (H1 & H2 & H3 & _ & H5 & _).
  rewrite completeness_ok in H1. injection H1 as <- <- <-.
  rewrite (consistency_ok df Hnd) in H2. injection H2 as <- <- <-.
  rewrite (uniqueness_ok df Hnd) in H3. injection H3 as <- <- <-.
  rewrite (accuracy_ok df Hnd) in H5. injection H5 as <- <-.
  repeat split; reflexivity.
Qed.

Lemma dimension_bounds (current_year : Z) (df : DataFrame) (r : Report) :
  wf_frame df ->
  assess_data_quality current_year df = Ok r ->
  in_0_100 (completeness_score r)
  /\ in_0_100 (consistency_score r)
  /\ in_0_100 (uniqueness_score r)
  /\ in_0_100 (validity_score r)
  /\ in_0_100 (accuracy_score r)
  /\ (forall t, timeliness_score r = Some t -> in_0_100 t).
Proof.
  intros Hwf H.
  destruct (report_scores _ _ H) as (E1 & _ & E2 & _ & D & P & E3 & E5).
  destruct (report_validity _ _ H) as [_ E4].
  destruct (report_timeliness _ _ H) as (_ & _ & E6).
  pose proof (report_completeness _ _ H) as M.
  pose proof (total_cells_pos df) as Tc.
  split; [| split; [| split; [| split; [| split]]]].
  - rewrite E1, M.
    pose proof (ratio_le_1 Tc (missing_le_cells Hwf)).
    pose proof (ratio_nonneg (frame_isnull_sum df) Tc).
    unfold in_0_100. lra.
  - rewrite E2. apply in_0_100_max0.
    pose proof (ratio_nonneg (consistency_issues r) Tc).
    pose proof (QofN_nonneg (type_inconsistencies r)). lra.
  - rewrite E3. apply in_0_100_max0.
    match goal with
    | |- (100 - _ - QofN ?a / _ * 50 <= 100)%Q => pose proof (ratio_nonneg a Tc)
    end.
    assert (0 <= duplicate_percentage r)%Q.
    { rewrite P. destruct (Nat.ltb_spec 0 (nrows df)) as [R | R]; [| lra].
      pose proof (ratio_nonneg (duplicate_rows r) R). lra. }
    lra.
  - rewrite E4. apply in_0_100_max0.
    pose proof (ratio_nonneg (validity_issues r) Tc). lra.
  - rewrite E5. apply in_0_100_max0.
    pose proof (ratio_nonneg (accuracy_issues r) Tc). lra.
  - intros t T. rewrite T in E6.
    destruct (Nat.ltb_spec 0 (nrows df)) as [R | R];
      [| rewrite andb_false_r in E6; discriminate].
    destruct (0 <? year_columns_found r); [| discriminate].
    injection E6 as ->. apply in_0_100_max0.
    pose proof (ratio_nonneg (old_years_count r) R). lra.
Qed.

(** The overall score lies between 0 and 100. *)
Theorem overall_score_within_0_100
  (current_year : Z) (df : DataFrame) (r : Report) :
  wf_frame df ->
  assess_data_quality current_year df = Ok r ->
  in_0_100 (overall_score r).
Proof.
  intros Hwf H.
  destruct (dimension_bounds _ Hwf H) as (B1 & B2 & B3 & B4 & B5 & B6).
  destruct (report_overall _ _ H) as [N S].
  unfold in_0_100 in *.
  destruct (timeliness_score r) as [t |].
  - specialize (B6 t eq_refl). rewrite (S t eq_refl).
    split.
    + apply Qle_shift_div_l; lra.
    + apply Qle_shift_div_r; lra.
  - rewrite (N eq_refl). split.
    + apply Qle_shift_div_l; lra.
    + apply Qle_shift_div_r; lra.
Qed.

(** The column details list the columns of the table in their order, with
    the label and the dtype of each; there are [total_columns] of them. *)
Theorem column_details_follow_columns
  (current_year : Z) (df : DataFrame) (r : Report) :
  assess_data_quality current_year df = Ok r ->
  map name (column_details r) = labels df
  /\ map type (column_details r)
     = map (fun c => dtype_str (series_dtype (snd c))) (columns df)
  /\ length (column_details r) = total_columns r.
Proof.
  intros H. rewrite (report_details _ _ H).
  apply assess_fields in H.
  destruct H as (_ & _ & _ & _ & _ & _ & _ & _ & _ & _ & C).
  rewrite C, !map_map, length_map. repeat split; reflexivity.
Qed.

(** The completeness score is 100 exactly when no cell is missing. *)
Theorem complete_iff_nothing_missing
  (current_year : Z) (df : DataFrame) (r : Report) :
  assess_data_quality current_year df = Ok r ->
  ((completeness_score r == 100)%Q <-> missing_values r = 0).
Proof.
  intros H. destruct (report_scores _ _ H) as (E & _).
  rewrite E. pose proof (total_cells_pos df) as Tc.
  pose proof (QofN_pos Tc) as Qc.
  split.
  - intros Q0.
    assert (Z : (QofN (missing_values r) / QofN (total_cells df) == 0)%Q) by lra.
    destruct (missing_values r) as [| m]; [reflexivity | exfalso].
    assert (P : (0 < QofN (S m) / QofN (total_cells df))%Q).
    { apply Qlt_shift_div_l; [assumption |].
      rewrite Qmult_0_l. apply QofN_pos. lia. }
    lra.
  - intros ->. change (QofN 0) with 0%Q. unfold Qdiv. ring.
Qed.

End EngineFacts.

Section EngineBounds.

Context {L : Lib}.

Lemma max0_ge (x : Q) : (x <= max0 x)%Q.
Proof.
  unfold max0. destruct (Qle_bool x 0) eqn:E; [| apply Qle_refl].
  now apply Qle_bool_iff in E.
Qed.

Lemma max0_zero (x : Q) : (x <= 0)%Q -> max0 x = 0%Q.
Proof.
  intros H. unfold max0. apply Qle_bool_iff in H. now rewrite H.
Qed.

(** The first of the elements is never a duplicate. *)
Lemma duplicated_sum_lt {A : Type} (same : A -> A -> bool) (l : list A) :
  0 < length l -> duplicated_sum same l < length l.
Proof.
  destruct l as [| x l]; simpl; [lia |]. intros _.
  unfold duplicated_sum. simpl.
  pose proof (duplicated_from_le same [x] l). lia.
Qed.

(** In a table that has rows, fewer rows are duplicates than there are rows,
    so the duplicate percentage stays below 100. *)
Theorem duplicate_rows_below_total
  (current_year : Z) (df : DataFrame) (r : Report) :
  assess_data_quality current_year df = Ok r ->
  0 < total_rows r ->
  duplicate_rows r < total_rows r
  /\ (0 <= duplicate_percentage r)%Q
  /\ (duplicate_percentage r < 100)%Q.
Proof.
  intros H Hn.
  destruct (report_scores _ _ H) as (_ & _ & _ & _ & D & P & _).
  apply assess_fields in H.
  destruct H as (_ & _ & _ & _ & _ & _ & _ & _ & _ & R & _).
  rewrite R in *.
  assert (Lt : duplicate_rows r < nrows df).
  { rewrite D. unfold frame_duplicated_sum.
    destruct (frame_empty df); [assumption |].
    pose proof (duplicated_sum_lt row_same (rows df)) as B.
    rewrite rows_length in B. now apply B. }
  split; [exact Lt |].
  rewrite P. destruct (Nat.ltb_spec 0 (nrows df)) as [_ | N]; [| lia].
  pose proof (ratio_nonneg (duplicate_rows r) Hn) as B0.
  assert (B1 : (QofN (duplicate_rows r) / QofN (nrows df) < 1)%Q).
  { apply Qlt_shift_div_r; [now apply QofN_pos |].
    rewrite Qmult_1_l. unfold QofN, Qlt. simpl. lia. }
  split; lra.
Qed.

Lemma dropna_len (s : Series) : series_len (dropna s) <= series_len s.
Proof.
  destruct s; simpl; try lia; apply filter_length_le.
Qed.

Lemma numeric_values_len (s : Series) :
  length (numeric_values s) <= series_len s.
Proof.
  destruct s; simpl; try lia. now rewrite length_map.
Qed.

Lemma accuracy_column_le (s : Series) : accuracy_column s 0 <= series_len s.
Proof.
  unfold accuracy_column.
  pose proof (numeric_values_len (dropna s)) as A.
  pose proof (dropna_len s) as B.
  destruct (is_numeric s); [| lia].
  destruct (10 <? _); [| lia].
  destruct (fgt _ _); [| lia].
  unfold outliers.
  pose proof (count_le_length
                (fun v => flt v (fsub (quantile (numeric_values (dropna s)) (25 # 100))
                                   (fscale 3 (fsub (quantile (numeric_values (dropna s)) (75 # 100))
                                                (quantile (numeric_values (dropna s)) (25 # 100)))))
                          || fgt v (fadd (quantile (numeric_values (dropna s)) (75 # 100))
                                      (fscale 3 (fsub (quantile (numeric_values (dropna s)) (75 # 100))
                                                   (quantile (numeric_values (dropna s)) (25 # 100))))))
                (numeric_values (dropna s))).
  simpl. lia.
Qed.

Lemma column_sum_le_cells (f : string * Series -> nat) (df : DataFrame) :
  wf_frame df ->
  (forall c, f c <= series_len (snd c)) ->
  sum_nat (map f (columns df)) <= total_cells df.
Proof.
  intros Hwf Hf.
  assert (B : sum_nat (map f (columns df)) <= length (columns df) * nrows df).
  { apply sum_nat_bounded. unfold wf_frame in Hwf.
    rewrite Forall_forall in *. intros c Hc.
    rewrite <- (Hwf c Hc). apply Hf. }
  unfold total_cells.
  destruct (Nat.ltb_spec 0 (nrows df * length (columns df))); lia.
Qed.

(** At most every cell is an outlier, and an outlier costs half a point of
    its share: the accuracy score is never below 50. *)
Theorem accuracy_score_at_least_50
  (current_year : Z) (df : DataFrame) (r : Report) :
  wf_frame df ->
  assess_data_quality current_year df = Ok r ->
  accuracy_issues r <= total_cells df
  /\ (50 <= accuracy_score r)%Q.
Proof.
  intros Hwf H.
  destruct (report_scores _ _ H) as (_ & _ & _ & _ & _ & _ & _ & E).
  pose proof (report_accuracy _ _ H) as A.
  assert (B : accuracy_issues r <= total_cells df).
  { rewrite A. apply column_sum_le_cells; [assumption |].
    intros c. apply accuracy_column_le. }
  split; [exact B |].
  rewrite E.
  pose proof (ratio_le_1 (total_cells_pos df) B) as R.
  eapply Qle_trans; [| apply max0_ge]. lra.
Qed.

(** Ten columns of mixed types are enough for a consistency score of 0,
    however many cells the table has. *)
Theorem ten_mixed_columns_zero_consistency
  (current_year : Z) (df : DataFrame) (r : Report) :
  assess_data_quality current_year df = Ok r ->
  10 <= type_inconsistencies r ->
  consistency_score r = 0%Q.
Proof.
  intros H Hk.
  destruct (report_scores _ _ H) as (_ & _ & E & _).
  rewrite E. apply max0_zero.
  pose proof (ratio_nonneg (consistency_issues r) (total_cells_pos df)).
  pose proof (QofN_le Hk) as K. change (QofN 10) with 10%Q in K. lra.
Qed.

(** A column is counted as type-inconsistent exactly when it is a text
    column and, of its first 100 non-missing values, more than a fifth and
    fewer than four fifths parse as numbers.  So a column whose sampled
    values all parse, or none of which parses, is never counted. *)
Theorem mixed_types_band (s : Series) (n : nat) :
  let sample := head 100 (astype_str (dropna s)) in
  let numeric_count := count float_parses sample in
  mixed_types_step s n
  = if is_object s
       && (length sample <? 5 * numeric_count)
       && (5 * numeric_count <? 4 * length sample)
    then n + 1 else n.
Proof.
  intros sample numeric_count. unfold mixed_types_step.
  fold sample. fold numeric_count.
  destruct (is_object s); [| reflexivity]. simpl.
  assert (G : Qgtb (QofN numeric_count) (QofN (length sample) * (2 # 10))
              = (length sample <? 5 * numeric_count)).
  { unfold Qgtb, QofN.
    destruct (Nat.ltb_spec (length sample) (5 * numeric_count)) as [P | P].
    - apply negb_true_iff. apply not_true_iff_false. intros C.
      apply Qle_bool_iff in C. unfold Qle in C. simpl in C. lia.
    - apply negb_false_iff. apply Qle_bool_iff. unfold Qle. simpl. lia. }
  assert (G' : Qltb (QofN numeric_count) (QofN (length sample) * (8 # 10))
               = (5 * numeric_count <? 4 * length sample)).
  { unfold Qltb.
    change (negb (Qle_bool (QofN (length sample) * (8 # 10)) (QofN numeric_count)))
      with (Qgtb (QofN (length sample) * (8 # 10)) (QofN numeric_count)).
    unfold Qgtb, QofN.
    destruct (Nat.ltb_spec (5 * numeric_count) (4 * length sample)) as [P | P].
    - apply negb_true_iff. apply not_true_iff_false. intros C.
      apply Qle_bool_iff in C. unfold Qle in C. simpl in C. lia.
    - apply negb_false_iff. apply Qle_bool_iff. unfold Qle. simpl. lia. }
  rewrite G, G'.
  destruct (Nat.ltb_spec 0 (length (astype_str (dropna s)))) as [P | P];
    [reflexivity |].
  assert (E : length sample = 0).
  { unfold sample, head. rewrite length_firstn. lia. }
  assert (E' : numeric_count = 0).
  { pose proof (count_le_length float_parses sample). unfold numeric_count. lia. }
  rewrite E, E'. reflexivity.
Qed.

(** Only the first 100 non-missing values of a text column decide whether
    it is counted as type-inconsistent. *)
Theorem mixed_types_sampled (cells1 cells2 : list (option string)) (n : nat) :
  head 100 (present cells1) = head 100 (present cells2) ->
  mixed_types_step (SObject cells1) n = mixed_types_step (SObject cells2) n.
Proof.
  intros E. rewrite !mixed_types_band. cbv zeta.
  now rewrite !astype_str_text, E.
Qed.

Lemma count_map {A B : Type} (f : A -> B) (p : B -> bool) (l : list A) :
  count p (map f l) = count (fun x => p (f x)) l.
Proof.
  unfold count. induction l as [| x l IH]; simpl; [reflexivity |].
  destruct (p (f x)); simpl; now rewrite IH.
Qed.

Lemma count_none {A : Type} (p : A -> bool) (l : list A) :
  (forall x, In x l -> p x = false) -> count p l = 0.
Proof.
  unfold count. induction l as [| x l IH]; intros H; simpl; [reflexivity |].
  rewrite (H x) by now left. apply IH. intros y Hy. apply H. now right.
Qed.

(** A text column adds to [validity_issues] the number of its non-missing
    values that are longer than 1000 characters, whatever its name; the
    test on the longest value changes nothing. *)
Theorem long_text_values_counted
  (col : string) (cells : list (option string)) (n : nat) :
  validity_column col (SObject cells) n
  = n + count (fun v => 1000 <? py_len v) (present cells).
Proof.
  unfold validity_column.
  change (is_numeric (SObject cells)) with false.
  change (is_object (SObject cells)) with true. cbv iota.
  rewrite astype_str_text.
  assert (Len : series_len (dropna (SObject cells)) = length (present cells)).
  { rewrite <- astype_str_text. simpl. now rewrite length_map. }
  rewrite Len.
  destruct (Nat.eqb_spec (length (present cells)) 0) as [E | E].
  - apply length_zero_iff_nil in E. rewrite E. unfold count. simpl. lia.
  - destruct (Nat.ltb_spec 0 (length (present cells))) as [_ | P]; [| lia].
    rewrite count_map.
    destruct (Nat.ltb_spec 1000 (list_max (map py_len (present cells))))
      as [P | P]; [reflexivity |].
    rewrite count_none; [lia |].
    intros v Hv. apply Nat.ltb_ge.
    apply list_max_le in P. rewrite Forall_forall in P.
    apply P. now apply in_map.
Qed.

End EngineBounds.

Section ClockFacts.

Context {L : Lib}.

Lemma count_mono {A : Type} (p q : A -> bool) (l : list A) :
  (forall x, p x = true -> q x = true) -> count p l <= count q l.
Proof.
  intros H. unfold count. induction l as [| x l IH]; simpl; [lia |].
  destruct (p x) eqn:P.
  - rewrite (H x P). simpl. lia.
  - destruct (q x); simpl; lia.
Qed.

Lemma old_value_mono (y1 y2 : Z) (v : float64) :
  (y1 <= y2)%Z -> old_value y1 v = true -> old_value y2 v = true.
Proof.
  intros Hy. unfold old_value, of_int.
  destruct v as [| | | a]; simpl; try easy.
  intros H. apply negb_true_iff in H. apply negb_true_iff.
  apply not_true_iff_false. apply not_true_iff_false in H.
  intros C. apply H. apply Qle_bool_iff. apply Qle_bool_iff in C.
  eapply Qle_trans; [| exact C].
  unfold Qle. simpl. lia.
Qed.

Lemma old_year_mono (y1 y2 : Z) (y : Z) :
  (y1 <= y2)%Z -> old_year y1 y = true -> old_year y2 y = true.
Proof.
  unfold old_year. intros Hy H. apply Z.ltb_lt in H. apply Z.ltb_lt. lia.
Qed.

Lemma detect_by_values_old (y1 y2 : Z) (s : Series) (st1 st2 : nat * nat) :
  (y1 <= y2)%Z -> snd st1 <= snd st2 ->
  snd (snd (detect_by_values y1 s st1)) <= snd (snd (detect_by_values y2 s st2)).
Proof.
  intros Hy E. unfold detect_by_values.
  pose proof (fun l => count_mono (old_value y1) (old_value y2) l
                         (fun v => old_value_mono v Hy)) as CV.
  pose proof (fun l => count_mono (old_year y1) (old_year y2) l
                         (fun v => old_year_mono v Hy)) as CY.
  destruct (is_numeric s).
  - destruct (0 <? length (numeric_values (dropna s))); [| exact E].
    destruct (Qgtb _ _); simpl; [| exact E].
    specialize (CV (numeric_values (dropna s))). lia.
  - destruct (is_object s); [| exact E].
    destruct (0 <? length (astype_str (dropna s))); [| exact E].
    destruct (to_datetime (astype_str (dropna s))) as [parsed |].
    + destruct (Qgtb (QofN (length (parsed_years parsed))) _); simpl.
      * specialize (CY (parsed_years parsed)). lia.
      * destruct (Qgtb _ _); simpl; [| exact E].
        specialize (CY (extract_years (head 100 (astype_str (dropna s))))).
        destruct (extract_years _); [exact E | lia].
    + simpl. destruct (Qgtb _ _); simpl; [| exact E].
      specialize (CY (extract_years (head 100 (astype_str (dropna s))))).
      destruct (extract_years _); [exact E | lia].
Qed.

Lemma timeliness_column_old (y1 y2 : Z) (col : string) (s : Series)
  (st1 st2 : nat * nat) :
  (y1 <= y2)%Z -> fst st1 = fst st2 -> snd st1 <= snd st2 ->
  snd (timeliness_column y1 col s st1) <= snd (timeliness_column y2 col s st2).
Proof.
  intros Hy F E. unfold timeliness_column, detect_by_name.
  destruct (detect_by_values_found y1 y2 s st1 st2 F) as [F1 _].
  pose proof (detect_by_values_old s st1 st2 Hy E) as G.
  rewrite F1.
  destruct (is_year_column col && negb (fst (detect_by_values y2 s st2)));
    [| exact G].
  destruct (0 <? series_len (dropna s)); [| exact G].
  destruct (is_numeric s); [| exact G].
  destruct (Qgtb _ _); simpl; [| exact G].
  pose proof (count_mono (old_value y1) (old_value y2)
                (numeric_values (dropna s))
                (fun v => old_value_mono v Hy)). lia.
Qed.

Lemma old_years_grow (y1 y2 : Z) (df : DataFrame) :
  (y1 <= y2)%Z ->
  snd (timeliness_counts y1 df) <= snd (timeliness_counts y2 df).
Proof.
  intros Hy. unfold timeliness_counts.
  assert (G : forall l st1 st2,
             fst st1 = fst st2 -> snd st1 <= snd st2 ->
             snd (fold_left (fun st c => timeliness_column y1 (fst c) (snd c) st)
                    l st1)
             <= snd (fold_left (fun st c => timeliness_column y2 (fst c) (snd c) st)
                       l st2)).
  { induction l as [| c l IH]; intros st1 st2 F E; simpl; [exact E |].
    apply IH.
    - now apply timeliness_column_found.
    - now apply timeliness_column_old. }
  apply G; simpl; lia.
Qed.

(** Assessing the same table in a later year never finds fewer old years
    and never gives a higher timeliness score; whether timeliness applies
    does not change. *)
Theorem later_year_never_more_timely
  (year1 year2 : Z) (df : DataFrame) (r1 r2 : Report) :
  (year1 <= year2)%Z ->
  assess_data_quality year1 df = Ok r1 ->
  assess_data_quality year2 df = Ok r2 ->
  old_years_count r1 <= old_years_count r2
  /\ match timeliness_score r1, timeliness_score r2 with
     | Some t1, Some t2 => (t2 <= t1)%Q
     | None, None => True
     | _, _ => False
     end.
Proof.
  intros Hy H1 H2.
  destruct (report_timeliness _ _ H1) as (Y1 & O1 & T1).
  destruct (report_timeliness _ _ H2) as (Y2 & O2 & T2).
  assert (Y : year_columns_found r1 = year_columns_found r2).
  { rewrite Y1, Y2. apply year_columns_found_same. }
  assert (O : old_years_count r1 <= old_years_count r2).
  { rewrite O1, O2. now apply old_years_grow. }
  split; [exact O |].
  rewrite T1, T2, Y.
  destruct (Nat.ltb_spec 0 (nrows df)) as [R | R];
    [| now rewrite andb_false_r].
  destruct (0 <? year_columns_found r2); simpl; [| exact I].
  apply max0_mono.
  assert (B : (QofN (old_years_count r1) / QofN (nrows df)
               <= QofN (old_years_count r2) / QofN (nrows df))%Q).
  { apply ratio_mono; try assumption. nia. }
  lra.
Qed.

End ClockFacts.

(** ** Integer columns and the e-mail test *)

Lemma contains_at_cons (c : ascii) (r : string) :
  c <> "@"%char -> contains "@" (String c r) = contains "@" r.
Proof.
  intros H.
  change (contains "@" (String c r))
    with (if prefix "@" (String c r) then true else contains "@" r).
  cbn [prefix].
  destruct (ascii_dec "@" c) as [E | _]; [congruence | reflexivity].
Qed.

Lemma digit_not_at (k : nat) : k < 10 -> ascii_of_nat (48 + k) <> "@"%char.
Proof.
  intros H E. apply (f_equal nat_of_ascii) in E.
  rewrite nat_ascii_embedding in E by lia.
  change (nat_of_ascii "@") with 64 in E. lia.
Qed.

Lemma digits_of_no_at (fuel n : nat) (acc : string) :
  contains "@" acc = false -> contains "@" (digits_of fuel n acc) = false.
Proof.
  revert n acc. induction fuel as [| f IH]; intros n acc H; [exact H |].
  cbn [digits_of].
  assert (D : contains "@" (String (ascii_of_nat (48 + n mod 10)) acc) = false).
  { rewrite contains_at_cons; [exact H |].
    apply digit_not_at. apply Nat.mod_upper_bound. lia. }
  destruct (n / 10 =? 0); [exact D | now apply IH].
Qed.

Lemma str_of_int_no_at (z : Z) : contains "@" (str_of_int z) = false.
Proof.
  unfold str_of_int, str_of_nat.
  destruct (z <? 0)%Z.
  - rewrite contains_at_cons by discriminate. now apply digits_of_no_at.
  - now apply digits_of_no_at.
Qed.

(** The e-mail test is made on the columns of every dtype, but the decimal
    writing of an integer holds no at sign: an [int64] column never runs
    the test and adds nothing to [consistency_issues]. *)
Theorem integer_column_no_email_issues {L : Lib} (values : list Z) (n : nat) :
  email_check_runs (SInt values) = false
  /\ email_step (SInt values) n = Ok n.
Proof.
  assert (E : email_check_runs (SInt values) = false).
  { unfold email_check_runs. simpl.
    destruct values as [| z l]; [reflexivity | apply str_of_int_no_at]. }
  split; [exact E |].
  rewrite email_step_ok. unfold email_issues. rewrite E. f_equal. lia.
Qed.

(** ** Empty tables *)

Section EmptyTables.

Context {L : Lib}.

Lemma sum_nat_zero {A : Type} (f : A -> nat) (l : list A) :
  (forall x, In x l -> f x = 0) -> sum_nat (map f l) = 0.
Proof.
  induction l as [| x l IH]; intros H; simpl; [reflexivity |].
  rewrite (H x) by now left. apply IH. intros y Hy. apply H. now right.
Qed.

Lemma empty_series_missing (s : Series) : series_len s = 0 -> all_missing s.
Proof.
  unfold all_missing. pose proof (dropna_len s). lia.
Qed.

(** What a column whose values are all missing adds to the counters. *)
Lemma all_missing_adds_nothing (col : string) (s : Series) :
  all_missing s ->
  email_issues s = 0
  /\ mixed_types_step s 0 = 0
  /\ validity_column col s 0 = 0
  /\ accuracy_column s 0 = 0
  /\ forall year st, timeliness_column year col s st = st.
Proof.
  intros Hm.
  pose proof (all_missing_no_text Hm) as Ht.
  pose proof (all_missing_no_number Hm) as Hv.
  unfold all_missing in Hm.
  repeat split.
  - unfold email_issues, email_check_runs. now rewrite Ht.
  - unfold mixed_types_step. rewrite Ht. now destruct (is_object s).
  - unfold validity_column. now rewrite Hm.
  - unfold accuracy_column. rewrite Hv. now destruct (is_numeric s).
  - intros year st. unfold timeliness_column, detect_by_name, detect_by_values.
    rewrite Ht, Hv, Hm. simpl.
    destruct (is_numeric s); simpl.
    + now rewrite andb_true_r; destruct (is_year_column col).
    + destruct (is_object s); simpl;
        now rewrite andb_true_r; destruct (is_year_column col).
Qed.

Lemma empty_frame_columns (df : DataFrame) :
  wf_frame df -> frame_empty df = true ->
  forall c, In c (columns df) -> series_len (snd c) = 0.
Proof.
  unfold wf_frame, frame_empty. intros Hwf He c Hc.
  rewrite Forall_forall in Hwf. rewrite (Hwf c Hc).
  apply orb_true_iff in He. destruct He as [E | E].
  - now apply Nat.eqb_eq in E.
  - apply Nat.eqb_eq in E. apply length_zero_iff_nil in E.
    rewrite E in Hc. destruct Hc.
Qed.

Lemma empty_frame_cells (df : DataFrame) :
  frame_empty df = true -> total_cells df = 1.
Proof.
  unfold frame_empty, total_cells. intros He.
  apply orb_true_iff in He. destruct He as [E | E]; apply Nat.eqb_eq in E;
    rewrite E; [reflexivity | now rewrite Nat.mul_0_r].
Qed.

(** On a table without rows or without columns the engine returns a report
    in which every counter is 0, the five scores and the overall score are
    100, and timeliness does not apply. *)
Theorem empty_table_scores_100 (current_year : Z) (df : DataFrame) :
  wf_frame df ->
  NoDup (labels df) ->
  frame_empty df = true ->
  exists r,
    assess_data_quality current_year df = Ok r
    /\ missing_values r = 0 /\ consistency_issues r = 0
    /\ type_inconsistencies r = 0 /\ duplicate_rows r = 0
    /\ validity_issues r = 0 /\ accuracy_issues r = 0
    /\ year_columns_found r = 0 /\ old_years_count r = 0
    /\ (completeness_score r == 100)%Q
    /\ (consistency_score r == 100)%Q
    /\ (uniqueness_score r == 100)%Q
    /\ (validity_score r == 100)%Q
    /\ (accuracy_score r == 100)%Q
    /\ timeliness_score r = None
    /\ (overall_score r == 100)%Q.
Proof.
  intros Hwf Hnd He.
  destruct (assess_returns df Hnd current_year) as [r H].
  exists r. split; [exact H |].
  pose proof (empty_frame_columns Hwf He) as Hc.
  pose proof (empty_frame_cells df He) as Tc.
  assert (Hm : forall c, In c (columns df) -> all_missing (snd c))
    by (intros c Hin; apply empty_series_missing; now apply Hc).
  destruct (report_scores _ _ H) as (E1 & _ & E2 & K & D & P & E3 & E5).
  destruct (report_validity _ _ H) as [V E4].
  destruct (report_timeliness _ _ H) as (Y & O & T).
  destruct (report_overall _ _ H) as [N _].
  pose proof (report_completeness _ _ H) as M.
  pose proof (report_consistency _ _ H) as C.
  pose proof (report_accuracy _ _ H) as A.
  assert (M0 : missing_values r = 0).
  { rewrite M. unfold frame_isnull_sum. apply sum_nat_zero.
    intros c Hin. pose proof (isnull_le_len (snd c)).
    rewrite (Hc c Hin) in *. lia. }
  assert (C0 : consistency_issues r = 0).
  { rewrite C. apply sum_nat_zero. intros c Hin.
    apply (all_missing_adds_nothing (fst c)), Hm, Hin. }
  assert (K0 : type_inconsistencies r = 0).
  { rewrite K. apply sum_nat_zero. intros c Hin.
    apply (all_missing_adds_nothing (fst c)), Hm, Hin. }
  assert (D0 : duplicate_rows r = 0).
  { rewrite D. unfold frame_duplicated_sum. now rewrite He. }
  assert (V0 : validity_issues r = 0).
  { rewrite V. apply sum_nat_zero. intros c Hin.
    apply (all_missing_adds_nothing (fst c)), Hm, Hin. }
  assert (A0 : accuracy_issues r = 0).
  { rewrite A. apply sum_nat_zero. intros c Hin.
    apply (all_missing_adds_nothing (fst c)), Hm, Hin. }
  assert (U0 : sum_nat (map (fun c => column_duplicates (snd c)) (columns df)) = 0).
  { apply sum_nat_zero. intros c Hin. unfold column_duplicates.
    destruct (is_object (snd c)); [| reflexivity].
    pose proof (series_duplicated_le (snd c)) as B.
    unfold series_duplicated_sum in B. rewrite (Hc c Hin) in B. lia. }
  assert (T0 : timeliness_counts current_year df = (0, 0)).
  { unfold timeliness_counts.
    assert (G : forall l st, (forall c, In c l -> all_missing (snd c)) ->
               fold_left (fun st c => timeliness_column current_year (fst c) (snd c) st)
                 l st = st).
    { induction l as [| c l IH]; intros st Hl; simpl; [reflexivity |].
      destruct (all_missing_adds_nothing (fst c) (Hl c (or_introl eq_refl)))
        as (_ & _ & _ & _ & Z).
      rewrite Z. apply IH. intros x Hx. apply Hl. now right. }
    now apply G. }
  rewrite T0 in Y, O. simpl in Y, O.
  assert (P0 : duplicate_percentage r = 0%Q \/ (duplicate_percentage r == 0)%Q).
  { right. rewrite P, D0. destruct (0 <? nrows df); [| reflexivity].
    change (QofN 0) with 0%Q. unfold Qdiv. ring. }
  assert (T' : timeliness_score r = None) by (rewrite T, Y; reflexivity).
  assert (S1 : (completeness_score r == 100)%Q).
  { rewrite E1, M0, Tc. reflexivity. }
  assert (S2 : (consistency_score r == 100)%Q).
  { rewrite E2, C0, K0, Tc. reflexivity. }
  assert (S3 : (uniqueness_score r == 100)%Q).
  { rewrite E3, U0, Tc, max0_spec.
    destruct P0 as [-> | ->]; reflexivity. }
  assert (S4 : (validity_score r == 100)%Q).
  { rewrite E4, V0, Tc. reflexivity. }
  assert (S5 : (accuracy_score r == 100)%Q).
  { rewrite E5, A0, Tc. reflexivity. }
  repeat (split; [assumption |]).
  rewrite (N T'), S1, S2, S3, S4, S5. reflexivity.
Qed.

End EmptyTables.

(** ** The order of the rows *)

Lemma f_same_sym (x y : float64) : f_same x y = f_same y x.
Proof.
  destruct x, y; simpl; try reflexivity.
  destruct (Qeq_bool q q0) eqn:E; destruct (Qeq_bool q0 q) eqn:E';
    try reflexivity.
  - apply Qeq_bool_iff in E. symmetry in E. apply Qeq_bool_iff in E. congruence.
  - apply Qeq_bool_iff in E'. symmetry in E'. apply Qeq_bool_iff in E'. congruence.
Qed.

Lemma f_same_trans (x y z : float64) :
  f_same x y = true -> f_same y z = true -> f_same x z = true.
Proof.
  destruct x, y, z; simpl; try easy.
  intros A B. apply Qeq_bool_iff in A. apply Qeq_bool_iff in B.
  apply Qeq_bool_iff. now rewrite A.
Qed.

Lemma cell_same_sym (a b : cell) : cell_same a b = cell_same b a.
Proof.
  destruct a as [x | x | [x |]], b as [y | y | [y |]]; simpl; try reflexivity.
  - apply Z.eqb_sym.
  - apply f_same_sym.
  - apply String.eqb_sym.
Qed.

Lemma cell_same_trans (a b c : cell) :
  cell_same a b = true -> cell_same b c = true -> cell_same a c = true.
Proof.
  destruct a as [x | x | [x |]], b as [y | y | [y |]], c as [z | z | [z |]];
    simpl; try easy.
  - intros A B. apply Z.eqb_eq in A. apply Z.eqb_eq in B. apply Z.eqb_eq. lia.
  - apply f_same_trans.
  - intros A B. apply String.eqb_eq in A. apply String.eqb_eq in B.
    apply String.eqb_eq. congruence.
Qed.

Lemma row_same_sym (r1 r2 : list (option cell)) : row_same r1 r2 = row_same r2 r1.
Proof.
  revert r2. induction r1 as [| [a |] r1 IH]; intros [| [b |] r2]; simpl;
    try reflexivity.
  - now rewrite cell_same_sym, IH.
  - apply IH.
Qed.

Lemma row_same_trans (r1 r2 r3 : list (option cell)) :
  row_same r1 r2 = true -> row_same r2 r3 = true -> row_same r1 r3 = true.
Proof.
  revert r2 r3.
  induction r1 as [| [a |] r1 IH]; intros [| [b |] r2] [| [c |] r3]; simpl;
    try easy.
  - intros A B. apply andb_true_iff in A. apply andb_true_iff in B.
    apply andb_true_iff. split.
    + eapply cell_same_trans; [apply A | apply B].
    + eapply IH; [apply A | apply B].
  - apply IH.
Qed.

Section DuplicatedOrder.

Variable A : Type.
Variable same : A -> A -> bool.
Hypothesis same_sym : forall x y, same x y = same y x.
Hypothesis same_trans :
  forall x y z, same x y = true -> same y z = true -> same x z = true.

Lemma duplicated_from_ext (l : list A) :
  forall seen seen',
    (forall y, existsb (same y) seen = existsb (same y) seen') ->
    duplicated_from same seen l = duplicated_from same seen' l.
Proof.
  induction l as [| x l IH]; intros seen seen' H; simpl; [reflexivity |].
  rewrite (H x). f_equal. apply IH.
  intros y. simpl. now rewrite (H y).
Qed.

Lemma same_seen (x y : A) (seen : list A) :
  same x y = true -> existsb (same x) seen = existsb (same y) seen.
Proof.
  intros E. induction seen as [| z seen IH]; simpl; [reflexivity |].
  rewrite IH. f_equal.
  destruct (same x z) eqn:X; destruct (same y z) eqn:Y; try reflexivity.
  - rewrite same_sym in E. rewrite (same_trans E X) in Y. discriminate.
  - rewrite (same_trans E Y) in X. discriminate.
Qed.

(** The number of duplicates does not depend on the order of the
    elements. *)
Lemma duplicated_from_perm (l l' : list A) :
  Permutation l l' ->
  forall seen, duplicated_from same seen l = duplicated_from same seen l'.
Proof.
  induction 1 as [| x l l' _ IH | x y l | l l' l'' _ IH1 _ IH2]; intros seen.
  - reflexivity.
  - simpl. now rewrite IH.
  - simpl.
    rewrite (duplicated_from_ext l (x :: y :: seen) (y :: x :: seen))
      by (intros z; simpl; now destruct (same z x), (same z y)).
    rewrite (same_sym x y).
    destruct (same y x) eqn:E; simpl.
    + rewrite (same_seen seen E). lia.
    + lia.
  - now rewrite IH1.
Qed.

End DuplicatedOrder.

Lemma count_perm {A : Type} (p : A -> bool) (l l' : list A) :
  Permutation l l' -> count p l = count p l'.
Proof.
  unfold count.
  induction 1 as [| x l l' _ IH | x y l | l l' l'' _ IH1 _ IH2]; simpl.
  - reflexivity.
  - destruct (p x); simpl; now rewrite IH.
  - destruct (p x), (p y); reflexivity.
  - congruence.
Qed.

Lemma list_max_perm (l l' : list nat) :
  Permutation l l' -> list_max l = list_max l'.
Proof.
  induction 1 as [| x l l' _ IH | x y l | l l' l'' _ IH1 _ IH2]; simpl.
  - reflexivity.
  - now rewrite IH.
  - lia.
  - congruence.
Qed.

Lemma filter_perm {A : Type} (p : A -> bool) (l l' : list A) :
  Permutation l l' -> Permutation (filter p l) (filter p l').
Proof.
  induction 1 as [| x l l' _ IH | x y l | l l' l'' _ IH1 _ IH2]; simpl.
  - constructor.
  - destruct (p x); [now constructor | assumption].
  - destruct (p x), (p y); try reflexivity. constructor.
  - now transitivity (filter p l').
Qed.

Lemma cells_at_all {A : Type} (pre l : list A) :
  cells_at (pre ++ l)%list (seq (length pre) (length l)) = l.
Proof.
  revert pre. induction l as [| x l IH]; intros pre; [reflexivity |].
  unfold cells_at in *. simpl.
  rewrite nth_error_app2, Nat.sub_diag by lia. simpl. f_equal.
  specialize (IH (pre ++ [x])%list).
  rewrite <- app_assoc, length_app in IH. simpl in IH.
  now rewrite Nat.add_1_r in IH.
Qed.

Lemma cells_at_perm {A : Type} (l : list A) (positions : list nat) :
  Permutation positions (seq 0 (length l)) ->
  Permutation (cells_at l positions) l.
Proof.
  intros H. rewrite <- (cells_at_all [] l) at 2.
  unfold cells_at. now apply Permutation_flat_map.
Qed.

Lemma cells_at_map {A B : Type} (f : A -> B) (l : list A) (positions : list nat) :
  cells_at (map f l) positions = map f (cells_at l positions).
Proof.
  unfold cells_at. induction positions as [| i p IH]; simpl; [reflexivity |].
  rewrite map_app, IH, nth_error_map. now destruct (nth_error l i).
Qed.

(** Element [j] of the selection is the element at position [j] of the
    positions, when all positions are inside the list. *)
Lemma cells_at_nth {A : Type} (l : list A) (positions : list nat) (j : nat) :
  Forall (fun i => i < length l) positions ->
  nth_error (cells_at l positions) j
  = match nth_error positions j with
    | Some i => nth_error l i
    | None => None
    end.
Proof.
  unfold cells_at. intros H. revert j.
  induction H as [| i p Hi _ IH]; intros j; simpl.
  - now destruct j.
  - destruct (nth_error l i) as [x |] eqn:E.
    + destruct j as [| j]; simpl; [now rewrite E | apply IH].
    + apply nth_error_None in E. lia.
Qed.

Lemma seq_nth_map {A : Type} (g : option nat -> A) (p : list nat) :
  map (fun j => g (nth_error p j)) (seq 0 (length p))
  = map (fun i => g (Some i)) p.
Proof.
  revert g. induction p as [| i p IH]; intros g; simpl; [reflexivity |].
  f_equal. rewrite <- seq_shift, map_map. apply (IH g).
Qed.

Section RowOrder.

Context {L : Lib}.

Variable positions : list nat.

Lemma series_at_cells (s : Series) :
  series_cells (series_at positions s) = cells_at (series_cells s) positions.
Proof.
  destruct s; simpl; now rewrite cells_at_map.
Qed.

Section OneColumn.

Variable s : Series.
Hypothesis all_rows : Permutation positions (seq 0 (series_len s)).

Lemma series_at_isnull : isnull_sum (series_at positions s) = isnull_sum s.
Proof.
  destruct s as [l | l | l]; simpl in *; try reflexivity;
    apply count_perm, cells_at_perm, all_rows.
Qed.

Lemma series_at_numbers :
  Permutation (numeric_values (dropna (series_at positions s)))
    (numeric_values (dropna s)).
Proof.
  destruct s as [l | l | l]; simpl in *.
  - apply Permutation_map, cells_at_perm, all_rows.
  - apply filter_perm, cells_at_perm, all_rows.
  - constructor.
Qed.

Lemma series_at_text :
  Permutation (astype_str (dropna (series_at positions s)))
    (astype_str (dropna s)).
Proof.
  destruct s as [l | l | l]; simpl in *.
  - apply Permutation_map, cells_at_perm, all_rows.
  - apply Permutation_map, filter_perm, cells_at_perm, all_rows.
  - apply Permutation_map, filter_perm, cells_at_perm, all_rows.
Qed.

Lemma series_at_dropna_len :
  series_len (dropna (series_at positions s)) = series_len (dropna s).
Proof.
  destruct s as [l | l | l]; simpl in *; apply Permutation_length;
    try apply filter_perm; apply cells_at_perm, all_rows.
Qed.

Lemma series_at_validity (col : string) (n : nat) :
  validity_column col (series_at positions s) n = validity_column col s n.
Proof.
  unfold validity_column. rewrite series_at_dropna_len.
  assert (N : is_numeric (series_at positions s) = is_numeric s)
    by now destruct s.
  assert (O : is_object (series_at positions s) = is_object s)
    by now destruct s.
  rewrite N, O.
  rewrite (count_perm is_inf series_at_numbers).
  rewrite (count_perm (fun v => flt v (of_int 0)) series_at_numbers).
  pose proof (Permutation_map py_len series_at_text) as P.
  rewrite (list_max_perm P), (count_perm (fun n => 1000 <? n) P).
  reflexivity.
Qed.

Lemma series_at_duplicates :
  column_duplicates (series_at positions s) = column_duplicates s.
Proof.
  unfold column_duplicates, duplicated_sum.
  assert (O : is_object (series_at positions s) = is_object s)
    by now destruct s.
  rewrite O. destruct (is_object s); [| reflexivity].
  rewrite series_at_cells.
  apply duplicated_from_perm.
  - apply cell_same_sym.
  - apply cell_same_trans.
  - apply cells_at_perm. now rewrite series_cells_len.
Qed.

Lemma series_at_detail (col : string) :
  detail_of (col, series_at positions s) = detail_of (col, s).
Proof.
  unfold detail_of. simpl. rewrite series_at_isnull.
  now destruct s.
Qed.

End OneColumn.

Variable df : DataFrame.
Hypothesis well_formed : wf_frame df.
Hypothesis all_rows : Permutation positions (seq 0 (nrows df)).

Lemma column_rows (c : string * Series) :
  In c (columns df) -> Permutation positions (seq 0 (series_len (snd c))).
Proof.
  intros Hc. unfold wf_frame in well_formed.
  rewrite Forall_forall in well_formed. now rewrite (well_formed c Hc).
Qed.

Lemma reorder_nrows : nrows (reorder_rows positions df) = nrows df.
Proof.
  simpl. rewrite (Permutation_length all_rows). apply length_seq.
Qed.

Lemma reorder_labels : labels (reorder_rows positions df) = labels df.
Proof.
  unfold labels. simpl. now rewrite map_map.
Qed.

Lemma reorder_cells : total_cells (reorder_rows positions df) = total_cells df.
Proof.
  unfold total_cells. rewrite reorder_nrows. simpl. now rewrite length_map.
Qed.

Lemma reorder_column_sum (f : string * Series -> nat) :
  (forall c, In c (columns df) ->
             f (fst c, series_at positions (snd c)) = f c) ->
  sum_nat (map f (columns (reorder_rows positions df)))
  = sum_nat (map f (columns df)).
Proof.
  intros H. simpl. rewrite map_map. f_equal. now apply map_ext_in.
Qed.

Lemma reorder_rows_perm :
  Permutation (rows (reorder_rows positions df)) (rows df).
Proof.
  assert (In_range : Forall (fun i => i < nrows df) positions).
  { rewrite Forall_forall. intros i Hi.
    apply (Permutation_in _ all_rows) in Hi. apply in_seq in Hi. lia. }
  assert (E : rows (reorder_rows positions df) = map (row df) positions).
  { unfold rows. cbn [nrows reorder_rows].
    rewrite <- (seq_nth_map
                  (fun o => map (fun c : string * Series =>
                                   match o with
                                   | Some i => nth_error (series_cells (snd c)) i
                                   | None => None
                                   end) (columns df))).
    apply map_ext. intros j. unfold row. cbn [columns reorder_rows].
    rewrite map_map. apply map_ext_in. intros c Hc. cbn [snd].
    rewrite series_at_cells. apply cells_at_nth.
    rewrite series_cells_len.
    unfold wf_frame in well_formed. rewrite Forall_forall in well_formed.
    now rewrite (well_formed c Hc). }
  rewrite E. unfold rows. now apply Permutation_map.
Qed.

Lemma reorder_duplicated :
  frame_duplicated_sum (reorder_rows positions df) = frame_duplicated_sum df.
Proof.
  unfold frame_duplicated_sum, frame_empty.
  rewrite reorder_nrows. cbn [columns reorder_rows]. rewrite length_map.
  destruct ((nrows df =? 0) || (length (columns df) =? 0)); [reflexivity |].
  apply duplicated_from_perm.
  - apply row_same_sym.
  - apply row_same_trans.
  - apply reorder_rows_perm.
Qed.

(** Taking the rows of a table in another order changes neither the
    missing-value count, nor the duplicate rows, nor the validity issues,
    and leaves the completeness, uniqueness and validity scores and the
    column details as they were. *)
Theorem row_order_irrelevant (current_year : Z) (r : Report) :
  assess_data_quality current_year df = Ok r ->
  exists r',
    assess_data_quality current_year (reorder_rows positions df) = Ok r'
    /\ total_rows r' = total_rows r
    /\ missing_values r' = missing_values r
    /\ completeness_score r' = completeness_score r
    /\ duplicate_rows r' = duplicate_rows r
    /\ duplicate_percentage r' = duplicate_percentage r
    /\ uniqueness_score r' = uniqueness_score r
    /\ validity_issues r' = validity_issues r
    /\ validity_score r' = validity_score r
    /\ column_details r' = column_details r.
Proof.
  intros H.
  pose proof (assess_labels_distinct _ _ H) as Hnd.
  assert (Hnd' : NoDup (labels (reorder_rows positions df)))
    by now rewrite reorder_labels.
  destruct (assess_returns _ Hnd' current_year) as [r' H'].
  exists r'. split; [exact H' |].
  destruct (report_scores _ _ H) as (E1 & _ & _ & _ & D & P & E3 & _).
  destruct (report_scores _ _ H') as (E1' & _ & _ & _ & D' & P' & E3' & _).
  destruct (report_validity _ _ H) as [V E4].
  destruct (report_validity _ _ H') as [V' E4'].
  pose proof (report_completeness _ _ H) as M.
  pose proof (report_completeness _ _ H') as M'.
  pose proof (report_details _ _ H) as Dt.
  pose proof (report_details _ _ H') as Dt'.
  apply assess_fields in H. apply assess_fields in H'.
  destruct H as (_ & _ & _ & _ & _ & _ & _ & _ & _ & R & _).
  destruct H' as (_ & _ & _ & _ & _ & _ & _ & _ & _ & R' & _).
  rewrite reorder_cells in *. rewrite reorder_nrows in *.
  assert (Mv : missing_values r' = missing_values r).
  { rewrite M, M'. unfold frame_isnull_sum.
    apply (reorder_column_sum (fun c => isnull_sum (snd c))).
    intros c Hc. cbn [fst snd]. apply series_at_isnull, column_rows, Hc. }
  assert (Dr : duplicate_rows r' = duplicate_rows r)
    by (rewrite D, D'; apply reorder_duplicated).
  assert (Dp : duplicate_percentage r' = duplicate_percentage r)
    by (rewrite P, P', Dr; reflexivity).
  assert (Vi : validity_issues r' = validity_issues r).
  { rewrite V, V'.
    apply (reorder_column_sum (fun c => validity_column (fst c) (snd c) 0)).
    intros c Hc. cbn [fst snd]. apply series_at_validity, column_rows, Hc. }
  assert (Cd : sum_nat (map (fun c => column_duplicates (snd c))
                          (columns (reorder_rows positions df)))
               = sum_nat (map (fun c => column_duplicates (snd c)) (columns df))).
  { apply (reorder_column_sum (fun c => column_duplicates (snd c))).
    intros c Hc. cbn [fst snd]. apply series_at_duplicates, column_rows, Hc. }
  repeat split.
  - congruence.
  - exact Mv.
  - rewrite E1, E1', Mv. reflexivity.
  - exact Dr.
  - exact Dp.
  - rewrite E3, E3', Dp, Cd. reflexivity.
  - exact Vi.
  - rewrite E4, E4', Vi. reflexivity.
  - rewrite Dt, Dt'. cbn [columns reorder_rows]. rewrite map_map.
    apply map_ext_in. intros c Hc.
    rewrite (series_at_detail (snd c) (column_rows c Hc) (fst c)).
    now destruct c.
Qed.

End RowOrder.

(** * The loader *)

Lemma contains_dot_cons (c : ascii) (r : string) :
  contains "." (String c r) = Ascii.eqb c "." || contains "." r.
Proof.
  change (contains "." (String c r))
    with (if prefix "." (String c r) then true else contains "." r).
  cbn [prefix].
  destruct (ascii_dec "." c) as [E | E].
  - subst c. now destruct r.
  - destruct (Ascii.eqb_spec c ".") as [E' | _]; [congruence | reflexivity].
Qed.

(** [rsplit_dot] cuts at the last dot: a name with a dot is what stands
    before it, the dot, and an extension without dot; a name without dot is
    left whole. *)
Lemma rsplit_dot_spec (s : string) :
  if contains "." s
  then exists before after,
         rsplit_dot s = [before; after]
         /\ s = before ++ "." ++ after
         /\ contains "." after = false
  else rsplit_dot s = [s].
Proof.
  induction s as [| c r IH]; [reflexivity |].
  rewrite contains_dot_cons. cbn [rsplit_dot].
  destruct (contains "." r) eqn:D.
  - destruct IH as (before & after & E & J & N).
    rewrite orb_true_r, E. exists (String c before), after.
    repeat split; [| exact N]. simpl. now rewrite J.
  - rewrite IH, orb_false_r.
    destruct (Ascii.eqb_spec c ".") as [-> | _]; [| reflexivity].
    exists EmptyString, r. repeat split. exact D.
Qed.

Lemma extension_some (s : string) :
  contains "." s = true ->
  exists before after,
    rsplit_dot s = [before; after] /\ iloc (rsplit_dot s) 1 = Ok after.
Proof.
  intros H. pose proof (rsplit_dot_spec s) as P. rewrite H in P.
  destruct P as (before & after & E & _).
  exists before, after. split; [exact E |]. now rewrite E.
Qed.

Lemma in_strings_In (s : string) (l : list string) :
  in_strings s l = true <-> In s l.
Proof.
  unfold in_strings. rewrite existsb_exists. split.
  - intros (x & Hx & E). apply String.eqb_eq in E. now subst.
  - intros H. exists s. split; [exact H | apply String.eqb_refl].
Qed.

Lemma read_as_allowed (io : Readers) (ext file_path : string) :
  In ext ALLOWED_EXTENSIONS ->
  read_as io ext file_path = read_csv io file_path
  \/ read_as io ext file_path = read_excel io file_path
  \/ read_as io ext file_path = read_json io file_path.
Proof.
  unfold ALLOWED_EXTENSIONS. simpl.
  intros [<- | [<- | [<- | [<- | []]]]]; unfold read_as; simpl; auto.
Qed.

(** A name that [allowed_file] accepts makes [load_data] go to the reader
    of its extension: the loader does not look at the first bytes of the
    file nor at the stored file name, and it ends with the frame of that
    reader or with its exception wrapped in a [ValueError]. *)
Theorem accepted_name_selects_reader
  (io : Readers) (file_path filename name : string) :
  allowed_file name = Ok true ->
  exists ext,
    In ext ALLOWED_EXTENSIONS
    /\ name_extension filename (Some name) = Ok (Some ext)
    /\ load_data io file_path filename (Some name)
       = wrap_loading (read_as io ext file_path)
    /\ (read_as io ext file_path = read_csv io file_path
        \/ read_as io ext file_path = read_excel io file_path
        \/ read_as io ext file_path = read_json io file_path).
Proof.
  unfold allowed_file. intros H.
  destruct (contains "." name) eqn:D; [| discriminate].
  destruct (extension_some name D) as (before & after & _ & E).
  rewrite E in H. cbn [bind] in H.
  assert (A : in_strings (lower after) ALLOWED_EXTENSIONS = true) by congruence.
  apply in_strings_In in A.
  exists (lower after).
  assert (Nm : or_else (Some name) filename = name).
  { destruct name; [discriminate | reflexivity]. }
  assert (X : name_extension filename (Some name) = Ok (Some (lower after))).
  { unfold name_extension. rewrite Nm, D, E. reflexivity. }
  assert (Ne : no_extension (Some (lower after)) = false).
  { destruct (lower after) eqn:Lw; [| reflexivity].
    unfold ALLOWED_EXTENSIONS in A. simpl in A.
    destruct A as [A | [A | [A | [A | []]]]]; discriminate. }
  repeat split; try assumption.
  - unfold load_data. now rewrite X, Ne.
  - now apply read_as_allowed.
Qed.

Lemma name_extension_total (filename : string) (original_filename : option string) :
  exists ext, name_extension filename original_filename = Ok ext.
Proof.
  unfold name_extension.
  destruct (contains "." (or_else original_filename filename)) eqn:D.
  - destruct (extension_some _ D) as (b & a & _ & E). rewrite E. simpl. eauto.
  - destruct (contains "." filename) eqn:D'; [| eauto].
    destruct (extension_some _ D') as (b & a & _ & E). rewrite E. simpl. eauto.
Qed.

Lemma sniff_extension_allowed (io : Readers) (file_path ext : string) :
  sniff_extension io file_path = Returns ext -> In ext ALLOWED_EXTENSIONS.
Proof.
  unfold sniff_extension, ALLOWED_EXTENSIONS.
  destruct (read_first_bytes io file_path) as [bytes |]; [| discriminate].
  destruct (bytes_eqb _ _); [intros [= <-]; simpl; auto |].
  destruct (bytes_eqb _ _); [intros [= <-]; simpl; auto |].
  destruct (iloc bytes 0) as [b0 | e]; [| discriminate].
  destruct (_ || _); intros [= <-]; simpl; auto.
Qed.

Lemma sniff_extension_errors (io : Readers) (file_path : string) :
  match sniff_extension io file_path with
  | Returns _ => True
  | ValueError msg => msg = cannot_determine
  | OtherError _ => False
  end.
Proof.
  unfold sniff_extension.
  destruct (read_first_bytes io file_path) as [bytes |]; [| reflexivity].
  destruct (bytes_eqb _ _); [exact I |].
  destruct (bytes_eqb _ _); [exact I |].
  destruct (iloc bytes 0) as [b0 | e]; [| reflexivity].
  now destruct (_ || _).
Qed.

(** [load_data] raises nothing but [ValueError]: the indexing of the split
    name is guarded by the test for a dot, a failure to read the first bytes
    gives the message of [cannot_determine], and every exception of a reader
    comes out with a message that starts with "Error loading file: ". *)
Theorem load_data_raises_only_value_errors
  (io : Readers) (file_path filename : string) (original_filename : option string) :
  match load_data io file_path filename original_filename with
  | Returns _ => True
  | ValueError msg =>
      msg = cannot_determine \/ exists m, msg = "Error loading file: " ++ m
  | OtherError _ => False
  end.
Proof.
  unfold load_data.
  destruct (name_extension_total filename original_filename) as [ext E].
  rewrite E.
  assert (W : forall r, match wrap_loading r with
                        | Returns _ => True
                        | ValueError msg =>
                            msg = cannot_determine
                            \/ exists m, msg = "Error loading file: " ++ m
                        | OtherError _ => False
                        end).
  { intros [m | df]; simpl; [right; eauto | exact I]. }
  destruct (no_extension ext).
  - pose proof (sniff_extension_errors io file_path) as S.
    destruct (sniff_extension io file_path) as [e | msg | e];
      [apply W | now left | exact S].
  - destruct ext as [e |]; [apply W | now left].
Qed.

(** Without an extension in the names the first bytes decide: when they
    cannot be read or the file is empty the loader raises the [ValueError]
    of [cannot_determine] and calls no reader; otherwise it goes to one of
    the three readers, never to the refusal of an unsupported type. *)
Theorem no_extension_sniffs
  (io : Readers) (file_path filename : string) (original_filename : option string)
  (ext : option string) :
  name_extension filename original_filename = Ok ext ->
  no_extension ext = true ->
  match read_first_bytes io file_path with
  | None | Some [] =>
      load_data io file_path filename original_filename
      = ValueError cannot_determine
  | Some (_ :: _) =>
      exists ext',
        In ext' ALLOWED_EXTENSIONS
        /\ load_data io file_path filename original_filename
           = wrap_loading (read_as io ext' file_path)
  end.
Proof.
  intros E N. unfold load_data. rewrite E, N.
  destruct (read_first_bytes io file_path) as [[| b bs] |] eqn:R.
  - unfold sniff_extension. rewrite R. reflexivity.
  - pose proof (sniff_extension_allowed io file_path) as A.
    pose proof (sniff_extension_errors io file_path) as S.
    destruct (sniff_extension io file_path) as [e | msg | e] eqn:Sn.
    + exists e. split; [now apply A | reflexivity].
    + exfalso. unfold sniff_extension in Sn. rewrite R in Sn.
      destruct (bytes_eqb _ _); [discriminate |].
      destruct (bytes_eqb _ _); [discriminate |]. simpl in Sn.
      destruct (_ || _); discriminate.
    + destruct S.
  - unfold sniff_extension. rewrite R. reflexivity.
Qed.








(** Which name gives the extension: an original name with a dot decides
    alone; an original name without a dot, like a missing or empty one,
    leaves the decision to the stored file name. *)
Theorem original_name_comes_first
  (io : Readers) (file_path filename : string) :
  (forall name other,
      contains "." name = true ->
      load_data io file_path filename (Some name)
      = load_data io file_path other (Some name))
  /\ (forall name,
        contains "." name = false ->
        load_data io file_path filename (Some name)
        = load_data io file_path filename None).
Proof.
  split.
  - intros name other D. unfold load_data, name_extension.
    assert (Nm : forall f, or_else (Some name) f = name)
      by (intros f; destruct name; [discriminate | reflexivity]).
    now rewrite !Nm, D.
  - intros name D. unfold load_data, name_extension.
    destruct name as [| c r]; [reflexivity |].
    cbn [or_else]. rewrite D.
    now destruct (contains "." filename).
Qed.

(** * The sanitiser of the responses *)

Lemma pyval_induction (P : pyval -> Prop) :
  P PNone ->
  (forall b, P (PBool b)) ->
  (forall z, P (PInt z)) ->
  (forall s, P (PStr s)) ->
  (forall x, P (PFloat x)) ->
  (forall z, P (NpInt z)) ->
  (forall x, P (NpFloat x)) ->
  (forall l, Forall P l -> P (PList l)) ->
  (forall d, Forall (fun kv => P (snd kv)) d -> P (PDict d)) ->
  forall v, P v.
Proof.
  intros HN HB HI HS HF HNI HNF HL HD.
  fix IH 1. intros [| b | z | s | x | z | x | l | d];
    [exact HN | apply HB | apply HI | apply HS | apply HF | apply HNI
    | apply HNF | | ].
  - apply HL. induction l as [| a l IHl]; constructor; [apply IH | exact IHl].
  - apply HD. induction d as [| kv d IHd]; constructor;
      [apply IH | exact IHd].
Qed.

(** Whatever it is given, [convert_nan_to_none] returns a value in which
    the lists and the dictionaries hold, at any depth, no NaN, no infinity
    and no numpy scalar. *)
Theorem converted_is_json_safe (v : pyval) :
  json_safe (convert_nan_to_none v) = true.
Proof.
  induction v as [| b | z | s | x | z | x | l IH | d IH] using pyval_induction;
    try reflexivity.
  - simpl. destruct (non_finite x) eqn:E; simpl; [reflexivity | now rewrite E].
  - simpl. destruct (non_finite x) eqn:E; simpl; [reflexivity | now rewrite E].
  - simpl. apply forallb_forall. intros a Ha.
    apply in_map_iff in Ha. destruct Ha as (a0 & <- & Ha0).
    rewrite Forall_forall in IH. now apply IH.
  - simpl. apply forallb_forall. intros kv Hkv.
    apply in_map_iff in Hkv. destruct Hkv as (kv0 & <- & Hkv0).
    rewrite Forall_forall in IH. simpl. now apply IH.
Qed.

Lemma convert_safe_id (v : pyval) :
  json_safe v = true -> convert_nan_to_none v = v.
Proof.
  induction v as [| b | z | s | x | z | x | l IH | d IH] using pyval_induction;
    simpl; try reflexivity; try discriminate.
  - intros H. apply negb_true_iff in H. now rewrite H.
  - intros H. f_equal. rewrite <- (map_id l) at 2.
    apply map_ext_in. intros a Ha.
    rewrite Forall_forall in IH. apply IH; [exact Ha |].
    rewrite forallb_forall in H. now apply H.
  - intros H. f_equal. rewrite <- (map_id d) at 2.
    apply map_ext_in. intros [k a] Ha. simpl. f_equal.
    rewrite Forall_forall in IH. apply (IH (k, a) Ha).
    rewrite forallb_forall in H. now apply (H (k, a)).
Qed.

(** [convert_nan_to_none] leaves a value that is already free of NaN,
    infinities and numpy scalars as it is; so converting twice is the same
    as converting once. *)
Theorem convert_twice_is_once (v : pyval) :
  (json_safe v = true -> convert_nan_to_none v = v)
  /\ convert_nan_to_none (convert_nan_to_none v) = convert_nan_to_none v.
Proof.
  split; [apply convert_safe_id |].
  apply convert_safe_id, converted_is_json_safe.
Qed.

(** A name with a dot whose extension is not empty and not allowed makes
    the loader raise the refusal of the file type, wrapped like every
    loading error, whatever the file holds: no reader is called. *)
Theorem refused_extension_not_read
  (io : Readers) (file_path filename name ext : string) :
  contains "." name = true ->
  allowed_file name = Ok false ->
  name_extension filename (Some name) = Ok (Some ext) ->
  ext <> EmptyString ->
  load_data io file_path filename (Some name)
  = ValueError ("Error loading file: " ++ unsupported_file_type ext).
Proof.
  intros D A X Ne.
  unfold allowed_file in A. rewrite D in A.
  unfold name_extension in X.
  assert (Nm : or_else (Some name) filename = name)
    by (destruct name; [discriminate | reflexivity]).
  rewrite Nm, D in X.
  destruct (extension_some name D) as (before & after & _ & E).
  rewrite E in A, X. cbn [bind] in A, X.
  assert (Ex : ext = lower after) by congruence.
  assert (Al : in_strings ext ALLOWED_EXTENSIONS = false) by congruence.
  unfold load_data, name_extension. rewrite Nm, D, E. cbn [bind].
  rewrite <- Ex.
  assert (N : no_extension (Some ext) = false)
    by (destruct ext; [congruence | reflexivity]).
  rewrite N. unfold read_as.
  unfold ALLOWED_EXTENSIONS, in_strings in Al. simpl in Al.
  destruct (String.eqb ext "csv"); [discriminate |].
  destruct (String.eqb ext "xlsx") eqn:E1; [discriminate |].
  destruct (String.eqb ext "xls") eqn:E2; [discriminate |].
  destruct (String.eqb ext "json"); [discriminate |].
  unfold in_strings. simpl. rewrite E1, E2. reflexivity.
Qed.

(** * Old years and year columns *)

Section OldYears.

Context {L : Lib}.

Lemma detect_by_values_steps (year : Z) (s : Series) (st : nat * nat) :
  let res := detect_by_values year s st in
  (fst res = false /\ snd res = st)
  \/ (fst res = true /\ fst (snd res) = fst st + 1 /\ snd st <= snd (snd res)).
Proof.
  unfold detect_by_values.
  destruct (is_numeric s).
  - destruct (0 <? length (numeric_values (dropna s))); [| now left].
    destruct (Qgtb _ _); simpl; [right | now left].
    repeat split; lia.
  - destruct (is_object s); [| now left].
    destruct (0 <? length (astype_str (dropna s))); [| now left].
    destruct (to_datetime (astype_str (dropna s))) as [parsed |].
    + destruct (Qgtb (QofN (length (parsed_years parsed))) _); simpl.
      * right. repeat split; lia.
      * destruct (Qgtb _ _); simpl; [right | now left].
        repeat split; [destruct (extract_years _); lia].
    + simpl. destruct (Qgtb _ _); simpl; [right | now left].
      repeat split; [destruct (extract_years _); lia].
Qed.

(** A column either leaves the two counters as they are or adds one to
    [year_columns_found]. *)
Lemma timeliness_column_steps (year : Z) (col : string) (s : Series)
  (st : nat * nat) :
  timeliness_column year col s st = st
  \/ (fst (timeliness_column year col s st) = fst st + 1
      /\ snd st <= snd (timeliness_column year col s st)).
Proof.
  unfold timeliness_column, detect_by_name.
  destruct (detect_by_values_steps year s st) as [[F E] | (F & E1 & E2)];
    rewrite F.
  - rewrite andb_true_r, E.
    destruct (is_year_column col); [| now left].
    destruct (0 <? series_len (dropna s)); [| now left].
    destruct (is_numeric s); [| now left].
    destruct (Qgtb _ _); [right | now left].
    simpl. split; lia.
  - rewrite andb_false_r. right. now split.
Qed.

Lemma timeliness_fold_steps (year : Z) (l : list (string * Series)) :
  forall st,
    let res := fold_left (fun st c => timeliness_column year (fst c) (snd c) st)
                 l st in
    fst st <= fst res /\ (fst res = fst st -> res = st).
Proof.
  induction l as [| c l IH]; intros st; simpl; [split; [lia | reflexivity] |].
  specialize (IH (timeliness_column year (fst c) (snd c) st)).
  simpl in IH. destruct IH as (A & B).
  destruct (timeliness_column_steps year (fst c) (snd c) st) as [E | [E1 E2]].
  - rewrite E in *. split; [exact A | exact B].
  - split; [lia | intros; lia].
Qed.

(** Old years are counted only in columns found to hold years: a report
    that found no year column counts no old year. *)
Theorem old_years_need_a_year_column
  (current_year : Z) (df : DataFrame) (r : Report) :
  assess_data_quality current_year df = Ok r ->
  year_columns_found r = 0 ->
  old_years_count r = 0.
Proof.
  intros H.
  destruct (report_timeliness _ _ H) as (Y & O & _).
  destruct (timeliness_fold_steps current_year (columns df) (0, 0)) as (_ & B).
  fold (timeliness_counts current_year df) in B. simpl in B.
  rewrite Y, O. intros Z. now rewrite (B Z).
Qed.

End OldYears.

(** * The further properties at work *)

Lemma overall_score_within_0_100_witness :
  exists r,
    assess_data_quality (L := RefLib.ref_lib) 2025 scenario_c = Ok r
    /\ in_0_100 (overall_score r).
Proof.
  eexists. split; [run |].
  apply (@overall_score_within_0_100 RefLib.ref_lib 2025 scenario_c);
    [well_formed | run].
Defined.

Lemma column_details_follow_columns_witness :
  exists r,
    assess_data_quality (L := RefLib.ref_lib) 2025 gaps = Ok r
    /\ map name (column_details r) = ["score"; "city"]
    /\ map type (column_details r)
       = map (fun c => dtype_str (series_dtype (snd c))) (columns gaps)
    /\ length (column_details r) = total_columns r.
Proof.
  eexists. split; [run |].
  apply (@column_details_follow_columns RefLib.ref_lib 2025 gaps). run.
Defined.

Lemma complete_iff_nothing_missing_witness :
  exists r,
    assess_data_quality (L := RefLib.ref_lib) 2025 gaps = Ok r
    /\ ((completeness_score r == 100)%Q <-> missing_values r = 0).
Proof.
  eexists. split; [run |].
  apply (@complete_iff_nothing_missing RefLib.ref_lib 2025 gaps). run.
Defined.

Lemma empty_table_scores_100_witness :
  exists r,
    assess_data_quality (L := RefLib.ref_lib) 2025 no_rows = Ok r
    /\ (overall_score r == 100)%Q.
Proof.
  destruct (@empty_table_scores_100 RefLib.ref_lib 2025 no_rows)
    as (r & H & P); [well_formed | distinct_labels | reflexivity |].
  exists r. split; [exact H |]. apply P.
Defined.

Lemma duplicate_rows_below_total_witness :
  exists r,
    assess_data_quality (L := RefLib.ref_lib) 2025 scenario_d = Ok r
    /\ duplicate_rows r < total_rows r
    /\ (0 <= duplicate_percentage r)%Q
    /\ (duplicate_percentage r < 100)%Q.
Proof.
  eexists. split; [run |].
  apply (@duplicate_rows_below_total RefLib.ref_lib 2025 scenario_d);
    [run | simpl; lia].
Defined.

Lemma accuracy_score_at_least_50_witness :
  exists r,
    assess_data_quality (L := RefLib.ref_lib) 2025 readings = Ok r
    /\ accuracy_issues r <= total_cells readings
    /\ (50 <= accuracy_score r)%Q.
Proof.
  eexists. split; [run |].
  apply (@accuracy_score_at_least_50 RefLib.ref_lib 2025 readings);
    [well_formed | run].
Defined.

Lemma ten_mixed_columns_zero_consistency_witness :
  exists r,
    assess_data_quality (L := RefLib.ref_lib) 2025 ten_mixed = Ok r
    /\ type_inconsistencies r = 10
    /\ consistency_score r = 0%Q.
Proof.
  eexists. split; [run |]. split; [reflexivity |].
  apply (@ten_mixed_columns_zero_consistency RefLib.ref_lib 2025 ten_mixed);
    [run | simpl; lia].
Defined.

Lemma mixed_types_sampled_witness :
  mixed_types_step (L := RefLib.ref_lib)
    (SObject (repeat (Some "1") 100 ++ [Some "x"])) 0
  = mixed_types_step (L := RefLib.ref_lib)
      (SObject (repeat (Some "1") 100 ++ [Some "2"; None; Some "y"])) 0.
Proof.
  apply (@mixed_types_sampled RefLib.ref_lib). reflexivity.
Defined.

Lemma later_year_never_more_timely_witness :
  exists r1 r2,
    assess_data_quality (L := RefLib.ref_lib) 2020 scenario_c = Ok r1
    /\ assess_data_quality (L := RefLib.ref_lib) 2025 scenario_c = Ok r2
    /\ old_years_count r1 <= old_years_count r2.
Proof.
  do 2 eexists. split; [run |]. split; [run |].
  apply (@later_year_never_more_timely RefLib.ref_lib 2020 2025 scenario_c);
    [lia | run | run].
Defined.

Lemma row_order_irrelevant_witness :
  exists r r',
    assess_data_quality (L := RefLib.ref_lib) 2025 scenario_a = Ok r
    /\ assess_data_quality (L := RefLib.ref_lib) 2025
         (reorder_rows [1; 0] scenario_a) = Ok r'
    /\ uniqueness_score r' = uniqueness_score r
    /\ validity_score r' = validity_score r.
Proof.
  eexists.
  edestruct (@row_order_irrelevant RefLib.ref_lib [1; 0] scenario_a)
    as (r' & H' & P).
  - well_formed.
  - apply perm_swap.
  - run.
  - exists r'. split; [reflexivity |]. split; [exact H' |].
    split; apply P.
Defined.

Lemma old_years_need_a_year_column_witness :
  exists r,
    assess_data_quality (L := RefLib.ref_lib) 2025 scenario_a = Ok r
    /\ old_years_count r = 0.
Proof.
  eexists. split; [run |].
  apply (@old_years_need_a_year_column RefLib.ref_lib 2025 scenario_a);
    [run | reflexivity].
Defined.

Lemma accepted_name_selects_reader_witness :
  allowed_file "Ages.CSV" = Ok true
  /\ load_data csv_disk "uploads/Ages.CSV" "Ages.CSV" (Some "Ages.CSV")
     = Returns scenario_a
  /\ exists ext,
       In ext ALLOWED_EXTENSIONS
       /\ name_extension "Ages.CSV" (Some "Ages.CSV") = Ok (Some ext)
       /\ load_data csv_disk "uploads/Ages.CSV" "Ages.CSV" (Some "Ages.CSV")
          = wrap_loading (read_as csv_disk ext "uploads/Ages.CSV")
       /\ (read_as csv_disk ext "uploads/Ages.CSV"
           = read_csv csv_disk "uploads/Ages.CSV"
           \/ read_as csv_disk ext "uploads/Ages.CSV"
              = read_excel csv_disk "uploads/Ages.CSV"
           \/ read_as csv_disk ext "uploads/Ages.CSV"
              = read_json csv_disk "uploads/Ages.CSV").
Proof.
  split; [reflexivity |]. split; [reflexivity |].
  apply accepted_name_selects_reader. reflexivity.
Defined.

Lemma no_extension_sniffs_witness :
  exists ext',
    In ext' ALLOWED_EXTENSIONS
    /\ load_data csv_disk "uploads/ages" "ages" (Some "ages")
       = wrap_loading (read_as csv_disk ext' "uploads/ages").
Proof.
  apply (@no_extension_sniffs csv_disk "uploads/ages" "ages" (Some "ages") None);
    reflexivity.
Defined.

Lemma original_name_comes_first_witness :
  load_data csv_disk "uploads/x" "x" (Some "ages.csv")
  = load_data csv_disk "uploads/x" "ages.json" (Some "ages.csv")
  /\ load_data csv_disk "uploads/x" "ages.csv" (Some "ages")
     = load_data csv_disk "uploads/x" "ages.csv" None.
Proof.
  split.
  - apply (proj1 (original_name_comes_first csv_disk "uploads/x" "x")).
    reflexivity.
  - apply (proj2 (original_name_comes_first csv_disk "uploads/x" "ages.csv")).
    reflexivity.
Defined.

Lemma refused_extension_not_read_witness :
  load_data csv_disk "uploads/notes.txt" "notes.txt" (Some "notes.TXT")
  = ValueError "Error loading file: Unsupported file type: txt. Please upload CSV, Excel, or JSON files.".
Proof.
  apply (@refused_extension_not_read csv_disk "uploads/notes.txt" "notes.txt"
           "notes.TXT" "txt"); try reflexivity. discriminate.
Defined.

Lemma convert_twice_is_once_witness :
  json_safe preview_record = false
  /\ convert_nan_to_none (convert_nan_to_none preview_record)
     = convert_nan_to_none preview_record
  /\ convert_nan_to_none (convert_nan_to_none preview_record)
     = PDict [("age", PInt 30); ("score", PNone);
              ("ratio", PFloat (Fin (1 # 2))); ("tags", PList [PStr "x"; PNone])].
Proof.
  split; [reflexivity |]. split.
  - apply convert_twice_is_once.
  - apply (proj1 (convert_twice_is_once (convert_nan_to_none preview_record))).
    reflexivity.
Defined.

(** * Thresholds and proportions *)

Section Proportions.

Context {L : Lib}.


Lemma max0_compat (x y : Q) : (x == y)%Q -> (max0 x == max0 y)%Q.
Proof.
  intros E. rewrite !max0_spec. now rewrite E.
Qed.


Lemma count_twice {A : Type} (p : A -> bool) (l : list A) :
  count p (l ++ l) = 2 * count p l.
Proof.
  unfold count. rewrite filter_app, length_app. lia.
Qed.

Lemma list_max_twice (l : list nat) : list_max (l ++ l) = list_max l.
Proof.
  rewrite list_max_app. lia.
Qed.

Lemma isnull_twice (s : Series) : isnull_sum (series_twice s) = 2 * isnull_sum s.
Proof.
  destruct s; simpl; try reflexivity; apply count_twice.
Qed.

Lemma validity_column_twice (col : string) (s : Series) :
  validity_column col (series_twice s) 0 = 2 * validity_column col s 0.
Proof.
  unfold validity_column.
  assert (N : is_numeric (series_twice s) = is_numeric s) by now destruct s.
  assert (O : is_object (series_twice s) = is_object s) by now destruct s.
  assert (V : numeric_values (dropna (series_twice s))
              = (numeric_values (dropna s) ++ numeric_values (dropna s))%list).
  { destruct s; simpl; [apply map_app | apply filter_app | reflexivity]. }
  assert (T : astype_str (dropna (series_twice s))
              = (astype_str (dropna s) ++ astype_str (dropna s))%list).
  { destruct s; simpl; rewrite ?filter_app; apply map_app. }
  assert (Ln : series_len (dropna (series_twice s)) = 2 * series_len (dropna s)).
  { destruct s; simpl; rewrite ?filter_app, length_app; lia. }
  rewrite N, O, V, T, Ln, !count_twice, map_app, list_max_twice, count_twice.
  destruct (Nat.eqb_spec (series_len (dropna s)) 0) as [E | E].
  - rewrite E. reflexivity.
  - destruct (Nat.eqb_spec (2 * series_len (dropna s)) 0) as [E' | _]; [lia |].
    destruct (Nat.ltb_spec 0 (series_len (dropna s))) as [_ | P]; [| lia].
    destruct (Nat.ltb_spec 0 (2 * series_len (dropna s))) as [_ | P]; [| lia].
    destruct (is_numeric s), (non_negative_name col), (is_object s);
      try destruct (1000 <? _); lia.
Qed.

Lemma ratio_twice (a b : nat) :
  0 < b -> (QofN (2 * a) / QofN (2 * b) == QofN a / QofN b)%Q.
Proof.
  intros Hb. pose proof (QofN_pos Hb) as Qb.
  rewrite !QofN_mult. change (QofN 2) with 2%Q.
  field. lra.
Qed.

Lemma sum_nat_doubled (f g : string * Series -> nat)
  (l : list (string * Series)) :
  (forall c, f (fst c, series_twice (snd c)) = 2 * g c) ->
  sum_nat (map f (map (fun c => (fst c, series_twice (snd c))) l))
  = 2 * sum_nat (map g l).
Proof.
  intros Hf. induction l as [| c l IH]; simpl; [reflexivity |].
  rewrite Hf. simpl in IH. lia.
Qed.

(** Missing cells and validity issues are measured as shares of the cells:
    in the table with every row a second time both counts double, and the
    completeness and validity scores stay what they were. *)
Theorem doubling_keeps_shares
  (current_year : Z) (df : DataFrame) (r : Report) :
  wf_frame df ->
  0 < nrows df ->
  assess_data_quality current_year df = Ok r ->
  exists r2,
    assess_data_quality current_year (duplicate_every_row df) = Ok r2
    /\ missing_values r2 = 2 * missing_values r
    /\ validity_issues r2 = 2 * validity_issues r
    /\ (completeness_score r2 == completeness_score r)%Q
    /\ (validity_score r2 == validity_score r)%Q.
Proof.
  intros Hwf Hn H.
  pose proof (assess_labels_distinct _ _ H) as Hnd.
  assert (Hnd2 : NoDup (labels (duplicate_every_row df)))
    by now rewrite labels_twice.
  destruct (assess_returns _ Hnd2 current_year) as [r2 H2].
  exists r2. split; [exact H2 |].
  destruct (report_scores _ _ H) as (E1 & _).
  destruct (report_scores _ _ H2) as (E1' & _).
  destruct (report_validity _ _ H) as [V E4].
  destruct (report_validity _ _ H2) as [V' E4'].
  pose proof (report_completeness _ _ H) as M.
  pose proof (report_completeness _ _ H2) as M'.
  assert (S2 : forall f g : string * Series -> nat,
             (forall c, f (fst c, series_twice (snd c)) = 2 * g c) ->
             sum_nat (map f (columns (duplicate_every_row df)))
             = 2 * sum_nat (map g (columns df))).
  { intros f g Hf. cbn [columns duplicate_every_row doubled_with].
    now apply sum_nat_doubled. }
  assert (Mv : missing_values r2 = 2 * missing_values r).
  { rewrite M, M'. unfold frame_isnull_sum. apply S2.
    intros c. apply isnull_twice. }
  assert (Vi : validity_issues r2 = 2 * validity_issues r).
  { rewrite V, V'. apply S2. intros c. apply validity_column_twice. }
  split; [exact Mv |]. split; [exact Vi |].
  assert (Cases : (total_cells (duplicate_every_row df) = 2 * total_cells df)
                  \/ (columns df = []
                      /\ total_cells (duplicate_every_row df) = total_cells df)).
  { unfold total_cells. cbn [nrows columns duplicate_every_row doubled_with].
    rewrite length_map.
    destruct (columns df) as [| c l]; [right | left].
    - split; [reflexivity |]. simpl. now rewrite !Nat.mul_0_r.
    - simpl length.
      destruct (Nat.ltb_spec 0 ((nrows df + nrows df) * S (length l)));
        destruct (Nat.ltb_spec 0 (nrows df * S (length l))); nia. }
  destruct Cases as [Tc | [Em Tc]].
  - split.
    + rewrite E1, E1', Mv, Tc.
      now rewrite (ratio_twice (missing_values r) (total_cells_pos df)).
    + rewrite E4, E4', Vi, Tc. apply max0_compat.
      now rewrite (ratio_twice (validity_issues r) (total_cells_pos df)).
  - assert (Z1 : missing_values r = 0)
      by (rewrite M; unfold frame_isnull_sum; now rewrite Em).
    assert (Z2 : validity_issues r = 0) by (rewrite V; now rewrite Em).
    split.
    + rewrite E1, E1', Mv, Tc, Z1. reflexivity.
    + rewrite E4, E4', Vi, Tc, Z2. reflexivity.
Qed.

End Proportions.


Lemma doubling_keeps_shares_witness :
  exists r r2,
    assess_data_quality (L := RefLib.ref_lib) 2025 gaps = Ok r
    /\ assess_data_quality (L := RefLib.ref_lib) 2025
         (duplicate_every_row gaps) = Ok r2
    /\ missing_values r2 = 2 * missing_values r
    /\ validity_issues r2 = 2 * validity_issues r
    /\ (completeness_score r2 == completeness_score r)%Q
    /\ (validity_score r2 == validity_score r)%Q.
Proof.
  eexists.
  edestruct (@doubling_keeps_shares RefLib.ref_lib 2025 gaps) as (r2 & H2 & P).
  - well_formed.
  - simpl. lia.
  - run.
  - exists r2. split; [reflexivity |]. split; [exact H2 | exact P].
Defined.
